(** * Weapon-target assignment simulation (src/dist/index.js)

    A shallow embedding of the entity-component store, the static tables, the
    weapon assignment system, the damage system, [killEntity] and the spawn
    helpers of [src/dist/index.js].

    Modelling choices:
    - JavaScript numbers used as coordinates, distances, accuracies and
      probabilities are real numbers [R] (rounding is not modelled);
      hit points and damages, which are integer valued in every table, are [Z];
      entity ids ([nodeId++] from 0) are [nat].
    - A JavaScript object keyed by entity ids ([components.position], ...) is
      an association list [obj A]; integer keys of a JS object are enumerated
      in ascending order, so a new key is inserted in ascending position and an
      existing key is overwritten in place.
    - A thrown [TypeError] (reading a property of [undefined]) is [None] of the
      [option] result of the operation.
    - A component category is modelled as always present; an absent category
      and an empty one differ only in reads that the stores built by the
      [api] never perform.
    - [Math.random()] is an explicit source [rnd : nat -> R]; the [n]-th draw
      of a damage pass is [rnd n]. *)

From Stdlib Require Import List String ZArith Reals Lra Psatz Lia Bool Arith.
Import ListNotations.

Local Open Scope string_scope.

(** ** JavaScript objects with integer keys *)

Definition obj (A : Type) : Type := list (nat * A).

Fixpoint obj_get {A} (m : obj A) (k : nat) : option A :=
  match m with
  | [] => None
  | (k', v) :: m' => if Nat.eqb k k' then Some v else obj_get m' k
  end.

Definition obj_has {A} (m : obj A) (k : nat) : bool :=
  match obj_get m k with Some _ => true | None => false end.

(** A new integer key takes its place in ascending order. *)
Fixpoint obj_insert {A} (k : nat) (v : A) (m : obj A) : obj A :=
  match m with
  | [] => [(k, v)]
  | (k', v') :: m' =>
      if Nat.ltb k k' then (k, v) :: m else (k', v') :: obj_insert k v m'
  end.

(** An existing key keeps its place and gets the new value. *)
Definition obj_replace {A} (k : nat) (v : A) (m : obj A) : obj A :=
  map (fun kv => if Nat.eqb k (fst kv) then (k, v) else kv) m.

(** [o[k] = v] *)
Definition obj_set {A} (k : nat) (v : A) (m : obj A) : obj A :=
  if obj_has m k then obj_replace k v m else obj_insert k v m.

(** [delete o[k]] *)
Definition obj_delete {A} (k : nat) (m : obj A) : obj A :=
  filter (fun kv => negb (Nat.eqb k (fst kv))) m.

(** [Object.values(o)] *)
Definition obj_values {A} (m : obj A) : list A := map snd m.

(** [for (const k in o)] enumerates the keys in order. *)
Definition obj_keys {A} (m : obj A) : list nat := map fst m.

(** ** Real-number comparisons as booleans *)

Definition Rleb (x y : R) : bool := if Rle_dec x y then true else false.
Definition Rltb (x y : R) : bool := if Rlt_dec x y then true else false.

(** ** Entities (class [EntityComponentSystem], lines 4-86) *)

(** The [targetPartType] component: [{ entityId, partType, parentEntityId }]
    (the entity id is the key of the component object). *)
Record TargetPartTypeComponent := {
  partType : string;
  parentEntityId : nat
}.

(** [entity.components]: created as [{}] by [addEntity] and never written;
    [assignWeaponToTarget] reads its [targetPartType] field. *)
Record EntityComponents := {
  ec_targetPartType : option TargetPartTypeComponent
}.

(** [{ id, type, components }] *)
Record Entity := {
  entity_id : nat;
  entity_type : string;
  entity_components : EntityComponents
}.

Definition EntityType_AGENT := "agent".
Definition EntityType_WEAPON := "weapon".
Definition EntityType_TARGET_PART := "target-part".
Definition EntityType_ENEMY := "enemy".

(** ** Components (lines 294-410); the [entityId] field is the key. *)

Record PositionComponent := { x : R; y : R }.
Record HealthComponent := { value : Z }.
Record WeaponSlotsComponent := { weaponIds : list (option nat) }.
Record WeaponComponent := { weaponType : string }.
Record EnemyTypeComponent := { enemyType : string }.
Record TargetingComponent := {
  source : nat;
  target : nat;
  color : string;
  enabled : bool
}.

(** [components]: one object per component name. *)
Record Components := {
  position : obj PositionComponent;
  health : obj HealthComponent;
  weaponSlots : obj WeaponSlotsComponent;
  weapon : obj WeaponComponent;
  enemyType_c : obj EnemyTypeComponent;
  targetPartType : obj TargetPartTypeComponent;
  targeting : obj TargetingComponent
}.

Definition set_position p c :=
  {| position := p; health := health c; weaponSlots := weaponSlots c;
     weapon := weapon c; enemyType_c := enemyType_c c;
     targetPartType := targetPartType c; targeting := targeting c |}.
Definition set_health h c :=
  {| position := position c; health := h; weaponSlots := weaponSlots c;
     weapon := weapon c; enemyType_c := enemyType_c c;
     targetPartType := targetPartType c; targeting := targeting c |}.
Definition set_weaponSlots s c :=
  {| position := position c; health := health c; weaponSlots := s;
     weapon := weapon c; enemyType_c := enemyType_c c;
     targetPartType := targetPartType c; targeting := targeting c |}.
Definition set_weapon wp c :=
  {| position := position c; health := health c; weaponSlots := weaponSlots c;
     weapon := wp; enemyType_c := enemyType_c c;
     targetPartType := targetPartType c; targeting := targeting c |}.
Definition set_enemyType e c :=
  {| position := position c; health := health c; weaponSlots := weaponSlots c;
     weapon := weapon c; enemyType_c := e;
     targetPartType := targetPartType c; targeting := targeting c |}.
Definition set_targetPartType t c :=
  {| position := position c; health := health c; weaponSlots := weaponSlots c;
     weapon := weapon c; enemyType_c := enemyType_c c;
     targetPartType := t; targeting := targeting c |}.
Definition set_targeting t c :=
  {| position := position c; health := health c; weaponSlots := weaponSlots c;
     weapon := weapon c; enemyType_c := enemyType_c c;
     targetPartType := targetPartType c; targeting := t |}.

Inductive LogEntry := Log (msg : string) | Warn (msg : string).

(** The global simulation state: [entityComponentSystem] (its [entities],
    [components] and [nodeId]), the two API flags of lines 629-630 and the
    console. *)
Record ECS := {
  entities : list Entity;
  components : Components;
  nodeId : nat;
  enemyTargetingEnabled : bool;
  agentTargetingEnabled : bool;
  console : list LogEntry
}.

Definition set_entities es w :=
  {| entities := es; components := components w; nodeId := nodeId w;
     enemyTargetingEnabled := enemyTargetingEnabled w;
     agentTargetingEnabled := agentTargetingEnabled w; console := console w |}.
Definition set_components c w :=
  {| entities := entities w; components := c; nodeId := nodeId w;
     enemyTargetingEnabled := enemyTargetingEnabled w;
     agentTargetingEnabled := agentTargetingEnabled w; console := console w |}.
Definition set_nodeId n w :=
  {| entities := entities w; components := components w; nodeId := n;
     enemyTargetingEnabled := enemyTargetingEnabled w;
     agentTargetingEnabled := agentTargetingEnabled w; console := console w |}.
Definition set_flags en ag w :=
  {| entities := entities w; components := components w; nodeId := nodeId w;
     enemyTargetingEnabled := en; agentTargetingEnabled := ag;
     console := console w |}.
Definition set_console l w :=
  {| entities := entities w; components := components w; nodeId := nodeId w;
     enemyTargetingEnabled := enemyTargetingEnabled w;
     agentTargetingEnabled := agentTargetingEnabled w; console := l |}.

Definition emptyComponents : Components :=
  {| position := []; health := []; weaponSlots := []; weapon := [];
     enemyType_c := []; targetPartType := []; targeting := [] |}.

(** [new EntityComponentSystem()] with the flags' initial values. *)
Definition initialECS : ECS :=
  {| entities := []; components := emptyComponents; nodeId := 0;
     enemyTargetingEnabled := true; agentTargetingEnabled := true;
     console := [] |}.

(** [addEntity(type)] *)
Definition addEntity (type : string) (w : ECS) : nat * ECS :=
  let id := nodeId w in
  let entity := {| entity_id := id; entity_type := type;
                   entity_components := {| ec_targetPartType := None |} |} in
  (id, {| entities := (entities w ++ [entity])%list; components := components w;
          nodeId := S id; enemyTargetingEnabled := enemyTargetingEnabled w;
          agentTargetingEnabled := agentTargetingEnabled w;
          console := console w |}).

Definition map_components (f : Components -> Components) (w : ECS) : ECS :=
  set_components (f (components w)) w.

(** ** Static configuration (lines 96-179) *)

Definition WeaponTypes : list string :=
  ["rifle"; "missile"; "pistol"; "laser"; "rocket"; "repeater"; "cannon"; "melee"].
Definition EnemyTypes : list string := ["infantry"; "devastator"; "tank"].

(** Lookup of an own property of a constant object literal. *)
Fixpoint table_get {A} (t : list (string * A)) (k : string) : option A :=
  match t with
  | [] => None
  | (k', v) :: t' => if String.eqb k k' then Some v else table_get t' k
  end.

Definition EnemyPartsConfig : list (string * list string) :=
  [("infantry", ["head"; "body"; "arm"; "leg"]);
   ("tank", ["heat sink"; "turret"; "tread"; "armor"]);
   ("devastator", ["heavy armor"; "head"])].

(** [EntityStats[k].health] *)
Definition EntityStats : list (string * Z) :=
  [("agent", 100%Z); ("infantry", 50%Z); ("devastator", 150%Z); ("tank", 200%Z)].

Record WeaponStat := { damage : Z; accuracy : R }.

Definition WeaponStats_table : list (string * WeaponStat) :=
  [("rifle", {| damage := 10; accuracy := 8 / 10 |});
   ("missile", {| damage := 30; accuracy := 6 / 10 |});
   ("pistol", {| damage := 5; accuracy := 9 / 10 |});
   ("laser", {| damage := 15; accuracy := 7 / 10 |});
   ("rocket", {| damage := 40; accuracy := 5 / 10 |});
   ("repeater", {| damage := 8; accuracy := 85 / 100 |});
   ("cannon", {| damage := 50; accuracy := 4 / 10 |});
   ("melee", {| damage := 20; accuracy := 1 |})]%R.

Definition WeaponStats (k : string) : option WeaponStat := table_get WeaponStats_table k.

Definition WeaponRangeConfig_table : list (string * (R * R)) :=
  [("rifle", (30, 60)); ("missile", (100, 150)); ("pistol", (10, 20));
   ("laser", (50, 80)); ("rocket", (70, 120)); ("repeater", (40, 60));
   ("cannon", (120, 180)); ("melee", (1, 1))]%R.

Definition WeaponRangeConfig (k : string) : option (R * R) :=
  table_get WeaponRangeConfig_table k.

(** [{ primary, specificTargets? }]; [specificTargets] maps an enemy type to
    part types, enumerated in insertion order by [for ... in]. *)
Record TargetPreferences := {
  primary : list string;
  specificTargets : option (list (string * list string))
}.

Definition WeaponTargetConfig_table : list (string * TargetPreferences) :=
  [("rifle", {| primary := ["devastator"; "infantry"];
                specificTargets := Some [("tank", ["heat sink"])] |});
   ("missile", {| primary := ["tank"; "devastator"]; specificTargets := None |});
   ("pistol", {| primary := ["infantry"]; specificTargets := None |});
   ("laser", {| primary := ["infantry"; "devastator"];
                specificTargets := Some [("tank", ["turret"])] |});
   ("rocket", {| primary := ["tank"];
                 specificTargets := Some [("devastator", ["heavy armor"])] |});
   ("repeater", {| primary := ["infantry"; "devastator"]; specificTargets := None |});
   ("cannon", {| primary := ["tank"]; specificTargets := None |});
   ("melee", {| primary := ["agent"; "enemy"; "target-part"];
                specificTargets := None |})].

Definition WeaponTargetConfig (k : string) : option TargetPreferences :=
  table_get WeaponTargetConfig_table k.

(** [getWeaponColor] (lines 598-610) *)
Definition getWeaponColor (weaponType : string) : string :=
  match weaponType with
  | "rifle" => "red"
  | "missile" => "blue"
  | "pistol" => "green"
  | "laser" => "purple"
  | "rocket" => "orange"
  | "repeater" => "brown"
  | "cannon" => "black"
  | "melee" => "gray"
  | _ => "gray"
  end.

(** ** Weapon assignment system (lines 415-536) *)

(** [Math.sqrt(Math.pow(a.x - b.x, 2) + Math.pow(a.y - b.y, 2))] *)
Definition distance (a b : PositionComponent) : R :=
  sqrt ((x a - x b) ^ 2 + (y a - y b) ^ 2).

(** [validTargetTypes] of [assignWeaponToTarget] (lines 478-483). *)
Definition validTargetTypes (owner : Entity) : list string :=
  if String.eqb (entity_type owner) EntityType_AGENT
  then [EntityType_ENEMY; EntityType_TARGET_PART]
  else if String.eqb (entity_type owner) EntityType_ENEMY
  then [EntityType_AGENT]
  else [].

(** [targetPreferences.primary.filter(type => validTargetTypes.includes(type))] *)
Definition filteredTargetTypes (owner : Entity) (prefs : TargetPreferences) : list string :=
  filter (fun t => existsb (String.eqb t) (validTargetTypes owner)) (primary prefs).

(** [Object.values(components.targeting).some(link =>
       link.source === weaponId && link.target === id)] *)
Definition alreadyTargeted (tg : obj TargetingComponent) (weaponId id : nat) : bool :=
  existsb (fun link => Nat.eqb (source link) weaponId && Nat.eqb (target link) id)
    (obj_values tg).

(** The primary candidate search of lines 490-493. *)
Definition firstCandidate (ents : list Entity) (tg : obj TargetingComponent)
    (weaponId : nat) (targetType : string) : option Entity :=
  find (fun e => String.eqb (entity_type e) targetType
                 && negb (alreadyTargeted tg weaponId (entity_id e))) ents.

(** The range test of lines 496-500 (and 522-526): [None] when a position or
    the range entry is missing (reading [.x] or [[1]] of [undefined]). *)
Definition inRangeOf (c : Components) (owner : Entity) (wpn : WeaponComponent)
    (tgt : Entity) : option bool :=
  match obj_get (position c) (entity_id owner), obj_get (position c) (entity_id tgt) with
  | Some sourcePosition, Some targetPosition =>
      match WeaponRangeConfig (weaponType wpn) with
      | Some (_, maxRange) => Some (Rleb (distance sourcePosition targetPosition) maxRange)
      | None => None
      end
  | _, _ => None
  end.

(** [components.targeting[weaponId] = new TargetingComponent(weaponId,
    target.id, getWeaponColor(weapon.weaponType), true)] *)
Definition recordTargeting (c : Components) (weaponId : nat) (wpn : WeaponComponent)
    (tgt : Entity) : Components :=
  set_targeting
    (obj_set weaponId
       {| source := weaponId; target := entity_id tgt;
          color := getWeaponColor (weaponType wpn); enabled := true |}
       (targeting c)) c.

(** Outcome of a candidate search inside [assignWeaponToTarget]:
    [None] a thrown error, [Some None] nothing assigned (go on),
    [Some (Some c')] assigned and returned. *)
Definition tryCandidate (c : Components) (weaponId : nat) (owner : Entity)
    (wpn : WeaponComponent) (tgt : option Entity) : option (option Components) :=
  match tgt with
  | None => Some None
  | Some t =>
      match inRangeOf c owner wpn t with
      | None => None
      | Some true => Some (Some (recordTargeting c weaponId wpn t))
      | Some false => Some None
      end
  end.

(** [for (const targetType of filteredTargetTypes) { ... }] (lines 489-506). *)
Fixpoint tryPrimary (ents : list Entity) (c : Components) (weaponId : nat)
    (owner : Entity) (wpn : WeaponComponent) (types : list string)
    : option (option Components) :=
  match types with
  | [] => Some None
  | targetType :: rest =>
      match tryCandidate c weaponId owner wpn
              (firstCandidate ents (targeting c) weaponId targetType) with
      | None => None
      | Some (Some c') => Some (Some c')
      | Some None => tryPrimary ents c weaponId owner wpn rest
      end
  end.

(** [entity.components.targetPartType.parentEntityId === targetType]: the
    left side is a number (an entity id), the right side a string (a key of
    [specificTargets]); strict equality of a number and a string is false. *)
Definition strictEq_number_string (n : nat) (s : string) : bool := false.

(** The specific-target candidate search of lines 513-519. *)
Definition specificCandidate (ents : list Entity) (tg : obj TargetingComponent)
    (weaponId : nat) (targetType specificTargetType : string) : option Entity :=
  find (fun e =>
          String.eqb (entity_type e) EntityType_TARGET_PART
          && match ec_targetPartType (entity_components e) with
             | None => false
             | Some tp =>
                 String.eqb (partType tp) specificTargetType
                 && strictEq_number_string (parentEntityId tp) targetType
             end
          && negb (alreadyTargeted tg weaponId (entity_id e))) ents.

(** [for (const specificTargetType of specificTargets) { ... }] *)
Fixpoint trySpecificParts (ents : list Entity) (c : Components) (weaponId : nat)
    (owner : Entity) (wpn : WeaponComponent) (targetType : string)
    (parts : list string) : option (option Components) :=
  match parts with
  | [] => Some None
  | specificTargetType :: rest =>
      match tryCandidate c weaponId owner wpn
              (specificCandidate ents (targeting c) weaponId targetType specificTargetType) with
      | None => None
      | Some (Some c') => Some (Some c')
      | Some None => trySpecificParts ents c weaponId owner wpn targetType rest
      end
  end.

(** [for (const targetType in targetPreferences.specificTargets) { ... }] *)
Fixpoint trySpecific (ents : list Entity) (c : Components) (weaponId : nat)
    (owner : Entity) (wpn : WeaponComponent) (st : list (string * list string))
    : option (option Components) :=
  match st with
  | [] => Some None
  | (targetType, parts) :: rest =>
      match trySpecificParts ents c weaponId owner wpn targetType parts with
      | None => None
      | Some (Some c') => Some (Some c')
      | Some None => trySpecific ents c weaponId owner wpn rest
      end
  end.

(** [assignWeaponToTarget(weaponId, owner, components)]; [ents] is
    [entityComponentSystem.entities]. *)
Definition assignWeaponToTarget (ents : list Entity) (weaponId : nat) (owner : Entity)
    (c : Components) : option Components :=
  match obj_get (weapon c) weaponId with
  | None => None
  | Some wpn =>
      match WeaponTargetConfig (weaponType wpn) with
      | None => Some c
      | Some targetPreferences =>
          match tryPrimary ents c weaponId owner wpn
                  (filteredTargetTypes owner targetPreferences) with
          | None => None
          | Some (Some c') => Some c'
          | Some None =>
              match specificTargets targetPreferences with
              | None => Some c
              | Some st =>
                  match trySpecific ents c weaponId owner wpn st with
                  | None => None
                  | Some (Some c') => Some c'
                  | Some None => Some c
                  end
              end
          end
      end
  end.

(** [weaponIds.forEach(weaponId => { if (weaponId !== null) ... })] *)
Fixpoint assignSlots (ents : list Entity) (owner : Entity) (slots : list (option nat))
    (c : Components) : option Components :=
  match slots with
  | [] => Some c
  | None :: rest => assignSlots ents owner rest c
  | Some weaponId :: rest =>
      match assignWeaponToTarget ents weaponId owner c with
      | None => None
      | Some c' => assignSlots ents owner rest c'
      end
  end.

(** [assignAgentWeapons] and [assignEnemyWeapons] have the same body. *)
Definition assignAgentWeapons (ents : list Entity) (agent : Entity) (c : Components)
    : option Components :=
  match obj_get (weaponSlots c) (entity_id agent) with
  | None => None
  | Some ws => assignSlots ents agent (weaponIds ws) c
  end.

Definition assignEnemyWeapons (ents : list Entity) (enemy : Entity) (c : Components)
    : option Components :=
  match obj_get (weaponSlots c) (entity_id enemy) with
  | None => None
  | Some ws => assignSlots ents enemy (weaponIds ws) c
  end.

(** [entities.forEach(entity => { ... })] of [update] (lines 426-432). *)
Fixpoint assignOwners (w : ECS) (es : list Entity) (c : Components) : option Components :=
  match es with
  | [] => Some c
  | e :: rest =>
      if String.eqb (entity_type e) EntityType_AGENT && agentTargetingEnabled w then
        match assignAgentWeapons (entities w) e c with
        | None => None
        | Some c' => assignOwners w rest c'
        end
      else if String.eqb (entity_type e) EntityType_ENEMY && enemyTargetingEnabled w then
        match assignEnemyWeapons (entities w) e c with
        | None => None
        | Some c' => assignOwners w rest c'
        end
      else assignOwners w rest c
  end.

(** [WeaponAssignmentSystem.update(entities, components)] *)
Definition WeaponAssignmentSystem_update (w : ECS) : option ECS :=
  let c0 := set_targeting [] (components w) in
  match assignOwners w (entities w) c0 with
  | None => None
  | Some c => Some (set_components c w)
  end.

(** ** Entity removal (lines 619-626) *)

(** [entities.indexOf(entity)] for an entity obtained by [find] on its id:
    the first index holding that id, or [-1]. *)
Fixpoint indexOf (es : list Entity) (id : nat) : Z :=
  match es with
  | [] => (-1)%Z
  | e :: es' =>
      if Nat.eqb (entity_id e) id then 0%Z
      else match indexOf es' id with
           | (-1)%Z => (-1)%Z
           | i => (i + 1)%Z
           end
  end.

(** [es.splice(start, 1)]: a negative start counts from the end. *)
Definition splice1 (es : list Entity) (start : Z) : list Entity :=
  let len := Z.of_nat (List.length es) in
  let s := if (start <? 0)%Z then Z.max 0 (len + start) else Z.min start len in
  (firstn (Z.to_nat s) es ++ skipn (S (Z.to_nat s)) es)%list.

(** [for (const componentName in components)
       if (components[componentName][id]) delete components[componentName][id]] *)
Definition deleteAllComponents (id : nat) (c : Components) : Components :=
  {| position := obj_delete id (position c); health := obj_delete id (health c);
     weaponSlots := obj_delete id (weaponSlots c); weapon := obj_delete id (weapon c);
     enemyType_c := obj_delete id (enemyType_c c);
     targetPartType := obj_delete id (targetPartType c);
     targeting := obj_delete id (targeting c) |}.

(** [killEntity(entity, entities, components)] *)
Definition killEntity (entity : Entity) (w : ECS) : ECS :=
  set_components (deleteAllComponents (entity_id entity) (components w))
    (set_entities (splice1 (entities w) (indexOf (entities w) (entity_id entity))) w).

(** ** Damage system (lines 541-590) *)

(** [WeaponRangeConfig["melee"][1]] *)
Definition meleeMaxRange : R :=
  match WeaponRangeConfig "melee" with Some (_, m) => m | None => 0%R end.

(** [calculateHitProbability(distance, maxRange, accuracy)] *)
Definition calculateHitProbability (distance maxRange accuracy : R) : R :=
  if Rleb distance meleeMaxRange then 1%R
  else
    let normalizedDistance := Rmax 0 (Rmin 1 (distance / maxRange)) in
    ((1 - normalizedDistance) * accuracy)%R.

(** One iteration of [for (const weaponId in components.targeting)]; the
    state carries the number of random draws made so far. A key deleted
    earlier in the loop is not visited (the [None] case of the first lookup). *)
Definition damageLink (rnd : nat -> R) (weaponId : nat) (st : ECS * nat)
    : option (ECS * nat) :=
  let (w, n) := st in
  let c := components w in
  match obj_get (targeting c) weaponId with
  | None => Some (w, n)
  | Some link =>
      if negb (enabled link) then Some (w, n) else
      match obj_get (weapon c) weaponId,
            find (fun e => Nat.eqb (entity_id e) (target link)) (entities w) with
      | Some wpn, Some tgt =>
          match WeaponStats (weaponType wpn),
                obj_get (position c) (source link),
                obj_get (position c) (entity_id tgt),
                WeaponRangeConfig (weaponType wpn) with
          | Some weaponStats, Some sourcePosition, Some targetPosition,
            Some (_, maxRange) =>
              let d := distance sourcePosition targetPosition in
              let hitProbability :=
                calculateHitProbability d maxRange (accuracy weaponStats) in
              if Rltb (rnd n) hitProbability then
                match obj_get (health c) (entity_id tgt) with
                | None => None
                | Some targetHealth =>
                    let v := (value targetHealth - damage weaponStats)%Z in
                    let w1 := set_components
                                (set_health (obj_set (entity_id tgt) {| value := v |}
                                               (health c)) c) w in
                    if (v <=? 0)%Z then Some (killEntity tgt w1, S n)
                    else Some (w1, S n)
                end
              else Some (w, S n)
          | _, _, _, _ => None
          end
      | _, _ => Some (w, n)
      end
  end.

Fixpoint damageLoop (rnd : nat -> R) (keys : list nat) (st : ECS * nat)
    : option (ECS * nat) :=
  match keys with
  | [] => Some st
  | k :: ks =>
      match damageLink rnd k st with
      | None => None
      | Some st' => damageLoop rnd ks st'
      end
  end.

(** [DamageSystem.update(entities, components)] *)
Definition DamageSystem_update (rnd : nat -> R) (w : ECS) : option ECS :=
  match damageLoop rnd (obj_keys (targeting (components w))) (w, 0) with
  | None => None
  | Some (w', _) => Some w'
  end.

(** [entityComponentSystem.update()]: the two systems of lines 636-640 in order. *)
Definition ECS_update (rnd : nat -> R) (w : ECS) : option ECS :=
  match WeaponAssignmentSystem_update w with
  | None => None
  | Some w1 => DamageSystem_update rnd w1
  end.

(** ** Spawn helpers and API (lines 643-723) *)

(** The loop of [WeaponSlotsComponent.addWeapon]: [None] when no slot is [null]. *)
Fixpoint fillFirstEmpty (ids : list (option nat)) (weaponId : nat)
    : option (list (option nat)) :=
  match ids with
  | [] => None
  | None :: rest => Some (Some weaponId :: rest)
  | Some i :: rest =>
      match fillFirstEmpty rest weaponId with
      | None => None
      | Some rest' => Some (Some i :: rest')
      end
  end.

(** [WeaponSlotsComponent.addWeapon(weaponId)]: the new slots and the console. *)
Definition addWeapon (ws : WeaponSlotsComponent) (weaponId : nat) (log : list LogEntry)
    : WeaponSlotsComponent * list LogEntry :=
  match fillFirstEmpty (weaponIds ws) weaponId with
  | Some ids => ({| weaponIds := ids |}, log)
  | None => (ws, (log ++ [Warn "Entity has no available weapon slots."])%list)
  end.

(** [new WeaponSlotsComponent(entityId, n)]: [Array(n).fill(null)]. *)
Definition newWeaponSlots (n : nat) : WeaponSlotsComponent :=
  {| weaponIds := repeat None n |}.

(** [addWeaponToEntity(entityId, weaponType)] *)
Definition addWeaponToEntity (entityId : nat) (wt : string) (w : ECS) : option ECS :=
  let weaponId := nodeId w in
  let w1 := set_nodeId (S weaponId) w in
  let w2 := map_components
              (fun c => set_weapon (obj_set weaponId {| weaponType := wt |} (weapon c)) c) w1 in
  match obj_get (position (components w2)) entityId with
  | None => None
  | Some p =>
      let w3 := map_components
                  (fun c => set_position
                              (obj_set weaponId {| x := (x p + 10)%R; y := (y p + 10)%R |}
                                 (position c)) c) w2 in
      match obj_get (weaponSlots (components w3)) entityId with
      | None => None
      | Some ws =>
          let (ws', log) := addWeapon ws weaponId (console w3) in
          Some (set_console log
                  (map_components
                     (fun c => set_weaponSlots (obj_set entityId ws' (weaponSlots c)) c) w3))
      end
  end.

(** [addTargetPartToEntity(enemyId, partType)]; [(px, py)] are the two
    [Math.random() * 800], [Math.random() * 600] draws. *)
Definition addTargetPartToEntity (enemyId : nat) (pt : string) (px py : R) (w : ECS) : ECS :=
  let partId := nodeId w in
  let w1 := set_nodeId (S partId) w in
  map_components
    (fun c =>
       set_targetPartType
         (obj_set partId {| partType := pt; parentEntityId := enemyId |} (targetPartType c))
         (set_health (obj_set partId {| value := 10%Z |} (health c))
            (set_position (obj_set partId {| x := px; y := py |} (position c)) c))) w1.

(** [api.addAgent()]; [(px, py)] is the random position and [randomWeaponType]
    the random pick from [WeaponTypes]. *)
Definition api_addAgent (px py : R) (randomWeaponType : string) (w : ECS) : option ECS :=
  let (agentId, w1) := addEntity EntityType_AGENT w in
  let w2 := map_components
              (fun c => set_weaponSlots (obj_set agentId (newWeaponSlots 7) (weaponSlots c))
                          (set_health (obj_set agentId {| value := 100%Z |} (health c))
                             (set_position (obj_set agentId {| x := px; y := py |}
                                              (position c)) c))) w1 in
  match addWeaponToEntity agentId "rifle" w2 with
  | None => None
  | Some w3 => addWeaponToEntity agentId randomWeaponType w3
  end.

(** [weaponSlots.weaponIds.some(id => id === null)] *)
Definition hasEmptySlot (w : ECS) (id : nat) : bool :=
  match obj_get (weaponSlots (components w)) id with
  | Some ws => existsb (fun o => match o with None => true | Some _ => false end)
                 (weaponIds ws)
  | None => false
  end.

(** [if (cond) addWeaponToEntity(enemyId, wt)] *)
Definition addWeaponIf (cond : bool) (enemyId : nat) (wt : string) (w : ECS) : option ECS :=
  if cond then addWeaponToEntity enemyId wt w else Some w.

(** [parts.forEach(partType => addTargetPartToEntity(enemyId, partType))];
    [partPos i] is the random position of the [i]-th part. *)
Fixpoint addParts (enemyId : nat) (parts : list string) (partPos : nat -> R * R) (i : nat)
    (w : ECS) : ECS :=
  match parts with
  | [] => w
  | pt :: rest =>
      addParts enemyId rest partPos (S i)
        (addTargetPartToEntity enemyId pt (fst (partPos i)) (snd (partPos i)) w)
  end.

(** [api.addEnemy()]; [enemyTypeChoice] is the random pick from [EnemyTypes]. *)
Definition api_addEnemy (enemyTypeChoice : string) (px py : R) (partPos : nat -> R * R)
    (w : ECS) : option ECS :=
  let (enemyId, w1) := addEntity EntityType_ENEMY w in
  match table_get EntityStats enemyTypeChoice with
  | None => None
  | Some hp =>
      let w2 := map_components
                  (fun c =>
                     set_weaponSlots (obj_set enemyId (newWeaponSlots 2) (weaponSlots c))
                       (set_enemyType (obj_set enemyId {| enemyType := enemyTypeChoice |}
                                         (enemyType_c c))
                          (set_health (obj_set enemyId {| value := hp |} (health c))
                             (set_position (obj_set enemyId {| x := px; y := py |}
                                              (position c)) c)))) w1 in
      match addWeaponIf (hasEmptySlot w2 enemyId) enemyId "laser" w2 with
      | None => None
      | Some w3 =>
      match addWeaponIf (hasEmptySlot w3 enemyId && String.eqb enemyTypeChoice "devastator")
              enemyId "rocket" w3 with
      | None => None
      | Some w4 =>
      match addWeaponIf (hasEmptySlot w4 enemyId && String.eqb enemyTypeChoice "tank")
              enemyId "cannon" w4 with
      | None => None
      | Some w5 =>
      match addWeaponIf (hasEmptySlot w5 enemyId) enemyId "melee" w5 with
      | None => None
      | Some w6 =>
          let parts := match table_get EnemyPartsConfig enemyTypeChoice with
                       | Some ps => ps | None => [] end in
          Some (addParts enemyId parts partPos 0 w6)
      end end end end
  end.

(** [api.toggleEnemyTargeting()] and [api.toggleAgentTargeting()] *)
Definition api_toggleEnemyTargeting (w : ECS) : ECS :=
  let b := negb (enemyTargetingEnabled w) in
  set_console (console w ++ [Log (if b then "Enemy Targeting: ON" else "Enemy Targeting: OFF")])%list
    (set_flags b (agentTargetingEnabled w) w).

Definition api_toggleAgentTargeting (w : ECS) : ECS :=
  let b := negb (agentTargetingEnabled w) in
  set_console (console w ++ [Log (if b then "Agent Targeting: ON" else "Agent Targeting: OFF")])%list
    (set_flags (enemyTargetingEnabled w) b w).

(** The states the program can reach: the API calls and simulation steps in
    any order, from the initial state. *)
Inductive reachable : ECS -> Prop :=
| reach_init : reachable initialECS
| reach_addAgent w px py wt w' :
    reachable w -> In wt WeaponTypes -> api_addAgent px py wt w = Some w' -> reachable w'
| reach_addEnemy w et px py pp w' :
    reachable w -> In et EnemyTypes -> api_addEnemy et px py pp w = Some w' -> reachable w'
| reach_toggleEnemy w : reachable w -> reachable (api_toggleEnemyTargeting w)
| reach_toggleAgent w : reachable w -> reachable (api_toggleAgentTargeting w)
| reach_update w rnd w' :
    reachable w -> (forall n, 0 <= rnd n < 1)%R -> ECS_update rnd w = Some w' -> reachable w'.

(** * Properties *)

Local Open Scope list_scope.

(** ** Hit probability *)

Lemma meleeMaxRange_eq : meleeMaxRange = 1%R.
Proof. reflexivity. Qed.

Lemma clamp01_bounds : forall q : R, (0 <= Rmax 0 (Rmin 1 q) <= 1)%R.
Proof.
  intro q. unfold Rmax, Rmin.
  destruct (Rle_dec 1 q); destruct (Rle_dec 0 _); lra.
Qed.

(** C5: with an accuracy in [0,1] and a positive maximum range, the hit
    probability lies in [0,1]; the melee threshold is the constant 1; at a
    distance within it the probability is exactly 1 whatever the range and
    accuracy, and beyond it the probability is
    [(1 - normalizedDistance) * accuracy] with [normalizedDistance] the
    quotient [distance / maxRange] clamped to [0,1]. *)
Theorem calculateHitProbability_spec :
  forall distance maxRange accuracy : R,
    (0 <= accuracy <= 1)%R -> (0 < maxRange)%R ->
    meleeMaxRange = 1%R /\
    (0 <= calculateHitProbability distance maxRange accuracy <= 1)%R /\
    ((distance <= meleeMaxRange)%R ->
       calculateHitProbability distance maxRange accuracy = 1%R) /\
    ((meleeMaxRange < distance)%R ->
       let normalizedDistance := Rmax 0 (Rmin 1 (distance / maxRange)) in
       (0 <= normalizedDistance <= 1)%R /\
       calculateHitProbability distance maxRange accuracy
       = ((1 - normalizedDistance) * accuracy)%R).
Proof.
  intros d m a Ha Hm.
  pose proof (clamp01_bounds (d / m)) as Hc.
  unfold calculateHitProbability, Rleb.
  split; [reflexivity |].
  split; [| split].
  - destruct (Rle_dec d meleeMaxRange); split; nra.
  - intro Hd. destruct (Rle_dec d meleeMaxRange); [reflexivity | contradiction].
  - intro Hd. cbv zeta. split; [exact Hc |].
    destruct (Rle_dec d meleeMaxRange); [lra | reflexivity].
Qed.

Lemma calculateHitProbability_spec_witness :
  (0 <= 8 / 10 <= 1)%R /\ (0 < 60)%R /\
  (0 <= calculateHitProbability 0 60 (8 / 10) <= 1)%R.
Proof.
  assert (Ha : (0 <= 8 / 10 <= 1)%R) by lra.
  assert (Hm : (0 < 60)%R) by lra.
  refine (conj Ha (conj Hm _)).
  exact (proj1 (proj2 (calculateHitProbability_spec 0 60 (8 / 10) Ha Hm))).
Defined.

(** ** Damage resolution skips dangling links *)

(** C7: a targeting link whose weapon ([components.weapon[weaponId]]) or
    target entity ([entities.find]) is missing is skipped: the state and the
    number of random draws are unchanged, and the pass goes on with the
    remaining links exactly as if the link were absent. *)
Theorem damageLink_skips_dangling :
  forall (rnd : nat -> R) (weaponId : nat) (w : ECS) (n : nat) (link : TargetingComponent),
    obj_get (targeting (components w)) weaponId = Some link ->
    (obj_get (weapon (components w)) weaponId = None \/
     find (fun e => Nat.eqb (entity_id e) (target link)) (entities w) = None) ->
    damageLink rnd weaponId (w, n) = Some (w, n) /\
    (forall ks, damageLoop rnd (weaponId :: ks) (w, n) = damageLoop rnd ks (w, n)).
Proof.
  intros rnd k w n link Hl Hmiss.
  assert (H : damageLink rnd k (w, n) = Some (w, n)).
  { unfold damageLink. rewrite Hl.
    destruct (enabled link); [| reflexivity]. simpl.
    destruct Hmiss as [Hw | Ht].
    - rewrite Hw. reflexivity.
    - rewrite Ht. destruct (obj_get (weapon (components w)) k); reflexivity. }
  split; [exact H |].
  intros ks. cbn [damageLoop]. rewrite H. reflexivity.
Qed.

Definition danglingLinkECS : ECS :=
  set_components
    (set_targeting [(5, {| source := 5; target := 9; color := "red"; enabled := true |})]
       emptyComponents) initialECS.

Lemma damageLink_skips_dangling_witness :
  damageLink (fun _ => 0%R) 5 (danglingLinkECS, 0) = Some (danglingLinkECS, 0).
Proof.
  exact (proj1 (damageLink_skips_dangling (fun _ => 0%R) 5 danglingLinkECS 0
                  {| source := 5; target := 9; color := "red"; enabled := true |}
                  eq_refl (or_intror eq_refl))).
Defined.

(** ** Objects: lookup, keys and membership *)

Lemma obj_get_None_iff {A} (m : obj A) k : obj_get m k = None <-> ~ In k (obj_keys m).
Proof.
  induction m as [| [k' v] m IH]; simpl.
  - tauto.
  - destruct (Nat.eqb k k') eqn:E.
    + apply Nat.eqb_eq in E. subst. split; [discriminate | intro H; exfalso; auto].
    + apply Nat.eqb_neq in E. rewrite IH. intuition.
Qed.

Lemma obj_keys_replace {A} k (v : A) m : obj_keys (obj_replace k v m) = obj_keys m.
Proof.
  unfold obj_keys, obj_replace. rewrite map_map. apply map_ext.
  intros [k' v']. simpl. destruct (Nat.eqb k k') eqn:E; [apply Nat.eqb_eq in E|]; auto.
Qed.

Lemma In_replace {A} k (v : A) m k' v' :
  In (k', v') (obj_replace k v m) -> (k' = k /\ v' = v) \/ In (k', v') m.
Proof.
  unfold obj_replace. rewrite in_map_iff. intros [[a b] [Heq Hin]]. simpl in Heq.
  destruct (Nat.eqb k a); inversion Heq; subst; auto.
Qed.

Lemma In_insert {A} k (v : A) m k' v' :
  In (k', v') (obj_insert k v m) -> (k' = k /\ v' = v) \/ In (k', v') m.
Proof.
  induction m as [| [a b] m IH]; simpl.
  - intros [H | []]. inversion H; auto.
  - destruct (Nat.ltb k a).
    + intros [H | H]; [inversion H; auto | auto].
    + intros [H | H]; [auto | destruct (IH H); auto].
Qed.

Lemma In_obj_set {A} k (v : A) m k' v' :
  In (k', v') (obj_set k v m) -> (k' = k /\ v' = v) \/ In (k', v') m.
Proof.
  unfold obj_set. destruct (obj_has m k); [apply In_replace | apply In_insert].
Qed.

Lemma In_keys_insert {A} k (v : A) m a :
  In a (obj_keys (obj_insert k v m)) -> a = k \/ In a (obj_keys m).
Proof.
  unfold obj_keys. rewrite in_map_iff. intros [[a' b'] [Ha Hin]]. simpl in Ha. subst.
  destruct (In_insert _ _ _ _ _ Hin) as [[-> _] | H]; [auto |].
  right. apply in_map_iff. eexists; split; [| exact H]; reflexivity.
Qed.

Lemma NoDup_insert {A} k (v : A) m :
  NoDup (obj_keys m) -> ~ In k (obj_keys m) -> NoDup (obj_keys (obj_insert k v m)).
Proof.
  induction m as [| [a b] m IH]; simpl; intros Hnd Hnin.
  - constructor; [simpl; tauto | constructor].
  - inversion Hnd as [| ? ? Ha Hm]; subst.
    destruct (Nat.ltb k a).
    + simpl. constructor; [exact Hnin | exact Hnd].
    + simpl. constructor.
      * intro Hin. apply In_keys_insert in Hin. destruct Hin as [-> | Hin]; auto.
      * apply IH; auto.
Qed.

Lemma NoDup_obj_set {A} k (v : A) m :
  NoDup (obj_keys m) -> NoDup (obj_keys (obj_set k v m)).
Proof.
  intro Hnd. unfold obj_set, obj_has.
  destruct (obj_get m k) eqn:E.
  - rewrite obj_keys_replace. exact Hnd.
  - apply NoDup_insert; [exact Hnd | apply obj_get_None_iff; exact E].
Qed.

Lemma In_obj_values {A} (m : obj A) v : In v (obj_values m) <-> exists k, In (k, v) m.
Proof.
  unfold obj_values. rewrite in_map_iff. split.
  - intros [[k v'] [Hv Hin]]. simpl in Hv. subst. eauto.
  - intros [k Hin]. exists (k, v). auto.
Qed.

(** ** The weapon assignment system writes only [targeting] *)

Lemma set_targeting_twice a b c : set_targeting a (set_targeting b c) = set_targeting a c.
Proof. destruct c; reflexivity. Qed.

Lemma set_targeting_same c : set_targeting (targeting c) c = c.
Proof. destruct c; reflexivity. Qed.

(** A successful candidate search records one link to an entity of the
    scanned list not yet targeted by this weapon. *)
Definition records (ents : list Entity) (c : Components) (weaponId : nat) (c' : Components) :=
  exists wpn tgt, In tgt ents /\ alreadyTargeted (targeting c) weaponId (entity_id tgt) = false
                  /\ c' = recordTargeting c weaponId wpn tgt.

Lemma tryCandidate_records ents c wid owner wpn P c' :
  tryCandidate c wid owner wpn
    (find (fun e => P e && negb (alreadyTargeted (targeting c) wid (entity_id e))) ents)
  = Some (Some c') -> records ents c wid c'.
Proof.
  unfold tryCandidate.
  destruct (find _ ents) as [t |] eqn:F; [| discriminate].
  apply find_some in F. destruct F as [Hin Hp].
  apply andb_true_iff in Hp. destruct Hp as [_ Hn]. apply negb_true_iff in Hn.
  destruct (inRangeOf c owner wpn t) as [[|] |]; try discriminate.
  intro H. inversion H. exists wpn, t. auto.
Qed.

Lemma tryPrimary_records ents c wid owner wpn types c' :
  tryPrimary ents c wid owner wpn types = Some (Some c') -> records ents c wid c'.
Proof.
  induction types as [| t types IH]; simpl; [discriminate |].
  destruct (tryCandidate _ _ _ _ _) as [[c1 |] |] eqn:E; try discriminate; auto.
  intro H. inversion H; subst.
  unfold firstCandidate in E.
  exact (tryCandidate_records _ _ _ _ _ (fun e => String.eqb (entity_type e) t) _ E).
Qed.

Lemma trySpecificParts_records ents c wid owner wpn tt parts c' :
  trySpecificParts ents c wid owner wpn tt parts = Some (Some c') -> records ents c wid c'.
Proof.
  induction parts as [| p parts IH]; simpl; [discriminate |].
  destruct (tryCandidate _ _ _ _ _) as [[c1 |] |] eqn:E; try discriminate; auto.
  intro H. inversion H; subst.
  unfold specificCandidate in E.
  exact (tryCandidate_records _ _ _ _ _ _ _ E).
Qed.

Lemma trySpecific_records ents c wid owner wpn st c' :
  trySpecific ents c wid owner wpn st = Some (Some c') -> records ents c wid c'.
Proof.
  induction st as [| [tt parts] st IH]; simpl; [discriminate |].
  destruct (trySpecificParts _ _ _ _ _ _ _) as [[c1 |] |] eqn:E; try discriminate; auto.
  intro H. inversion H; subst. eapply trySpecificParts_records; eauto.
Qed.

(** Each call of [assignWeaponToTarget] either leaves the components as they
    are or records one link for this weapon. *)
Lemma assignWeaponToTarget_shape ents wid owner c c' :
  assignWeaponToTarget ents wid owner c = Some c' -> c' = c \/ records ents c wid c'.
Proof.
  unfold assignWeaponToTarget.
  destruct (obj_get (weapon c) wid) as [wpn |]; [| discriminate].
  destruct (WeaponTargetConfig (weaponType wpn)) as [prefs |];
    [| intro H; inversion H; auto].
  destruct (tryPrimary _ _ _ _ _ _) as [[c1 |] |] eqn:E; try discriminate.
  - intro H. inversion H; subst. right. eapply tryPrimary_records; eauto.
  - destruct (specificTargets prefs) as [st |]; [| intro H; inversion H; auto].
    destruct (trySpecific _ _ _ _ _ _) as [[c1 |] |] eqn:E2; try discriminate.
    + intro H. inversion H; subst. right. eapply trySpecific_records; eauto.
    + intro H. inversion H; auto.
Qed.

Lemma records_frame ents c wid c' :
  records ents c wid c' -> c' = set_targeting (targeting c') c.
Proof.
  intros (wpn & tgt & _ & _ & ->). reflexivity.
Qed.

Lemma records_entries ents c wid c' :
  records ents c wid c' ->
  forall k l, In (k, l) (targeting c') ->
    In (k, l) (targeting c) \/ (k = wid /\ source l = wid /\ enabled l = true).
Proof.
  intros (wpn & tgt & _ & _ & ->) k l Hin. simpl in Hin.
  apply In_obj_set in Hin. destruct Hin as [[-> ->] | Hin]; simpl; auto.
Qed.

Lemma records_NoDup ents c wid c' :
  records ents c wid c' -> NoDup (obj_keys (targeting c)) -> NoDup (obj_keys (targeting c')).
Proof.
  intros (wpn & tgt & _ & _ & ->) Hnd. simpl. apply NoDup_obj_set. exact Hnd.
Qed.

Lemma assignWeaponToTarget_frame ents wid owner c c' :
  assignWeaponToTarget ents wid owner c = Some c' -> c' = set_targeting (targeting c') c.
Proof.
  intro H. destruct (assignWeaponToTarget_shape _ _ _ _ _ H) as [-> | Hr].
  - symmetry. apply set_targeting_same.
  - eapply records_frame; eauto.
Qed.

Lemma frame_trans c c1 c2 :
  c1 = set_targeting (targeting c1) c -> c2 = set_targeting (targeting c2) c1 ->
  c2 = set_targeting (targeting c2) c.
Proof. intros H1 H2. rewrite H2, H1 at 1. rewrite set_targeting_twice. reflexivity. Qed.

Lemma frame_weaponSlots c c' : c' = set_targeting (targeting c') c -> weaponSlots c' = weaponSlots c.
Proof. intros ->. reflexivity. Qed.

(** The slots loop: only [targeting] changes, keys stay distinct, and every
    new entry is a link of one of the slots' weapons, keyed by it. *)
Lemma assignSlots_prop ents owner slots c c' :
  assignSlots ents owner slots c = Some c' ->
  c' = set_targeting (targeting c') c /\
  (NoDup (obj_keys (targeting c)) -> NoDup (obj_keys (targeting c'))) /\
  (forall k l, In (k, l) (targeting c') ->
     In (k, l) (targeting c) \/ (source l = k /\ enabled l = true /\ In (Some k) slots)).
Proof.
  revert c. induction slots as [| [wid |] slots IH]; intros c; simpl.
  - intro H. inversion H; subst. split; [symmetry; apply set_targeting_same |]. auto.
  - destruct (assignWeaponToTarget ents wid owner c) as [c1 |] eqn:E; [| discriminate].
    intro H. destruct (IH c1 H) as (Hf & Hn & He).
    destruct (assignWeaponToTarget_shape _ _ _ _ _ E) as [-> | Hr].
    + split; [exact Hf |]. split; [exact Hn |].
      intros k l Hin. destruct (He k l Hin) as [? | (? & ? & ?)]; auto.
    + split; [eapply frame_trans; [eapply records_frame; eauto | exact Hf] |].
      split; [intro Hnd; apply Hn; eapply records_NoDup; eauto |].
      intros k l Hin. destruct (He k l Hin) as [Hin1 | (? & ? & ?)]; [| auto].
      destruct (records_entries _ _ _ _ Hr k l Hin1) as [? | (-> & ? & ?)]; auto.
  - intro H. destruct (IH c H) as (Hf & Hn & He). split; [exact Hf |]. split; [exact Hn |].
    intros k l Hin. destruct (He k l Hin) as [? | (? & ? & ?)]; auto.
Qed.

(** Whether [update] processes the weapons of an entity. *)
Definition ownerEnabled (w : ECS) (e : Entity) : bool :=
  (String.eqb (entity_type e) EntityType_AGENT && agentTargetingEnabled w)
  || (String.eqb (entity_type e) EntityType_ENEMY && enemyTargetingEnabled w).

(** A weapon of an enabled owner among [es]. *)
Definition weaponOfEnabledOwner (w : ECS) (es : list Entity) (c : Components) (k : nat) :=
  exists owner ws, In owner es /\ ownerEnabled w owner = true
                   /\ obj_get (weaponSlots c) (entity_id owner) = Some ws
                   /\ In (Some k) (weaponIds ws).

Lemma assignOwnerWeapons_prop ents owner c c' :
  match obj_get (weaponSlots c) (entity_id owner) with
  | None => None
  | Some ws => assignSlots ents owner (weaponIds ws) c
  end = Some c' ->
  c' = set_targeting (targeting c') c /\
  (NoDup (obj_keys (targeting c)) -> NoDup (obj_keys (targeting c'))) /\
  (forall k l, In (k, l) (targeting c') ->
     In (k, l) (targeting c) \/
     (source l = k /\ enabled l = true /\
      exists ws, obj_get (weaponSlots c) (entity_id owner) = Some ws /\ In (Some k) (weaponIds ws))).
Proof.
  destruct (obj_get (weaponSlots c) (entity_id owner)) as [ws |] eqn:E; [| discriminate].
  intro H. destruct (assignSlots_prop _ _ _ _ _ H) as (Hf & Hn & He).
  split; [exact Hf |]. split; [exact Hn |].
  intros k l Hin. destruct (He k l Hin) as [? | (? & ? & ?)]; [auto |].
  right. split; [auto | split; [auto |]]. exists ws. auto.
Qed.

Lemma assignOwners_prop w es c c' :
  assignOwners w es c = Some c' ->
  c' = set_targeting (targeting c') c /\
  (NoDup (obj_keys (targeting c)) -> NoDup (obj_keys (targeting c'))) /\
  (forall k l, In (k, l) (targeting c') ->
     In (k, l) (targeting c) \/
     (source l = k /\ enabled l = true /\ weaponOfEnabledOwner w es c k)).
Proof.
  revert c. induction es as [| e es IH]; intros c; simpl.
  - intro H. inversion H; subst. split; [symmetry; apply set_targeting_same |]. auto.
  - assert (Hstep : forall c1, 
      match obj_get (weaponSlots c) (entity_id e) with
      | None => None
      | Some ws => assignSlots (entities w) e (weaponIds ws) c
      end = Some c1 -> ownerEnabled w e = true ->
      assignOwners w es c1 = Some c' ->
      c' = set_targeting (targeting c') c /\
      (NoDup (obj_keys (targeting c)) -> NoDup (obj_keys (targeting c'))) /\
      (forall k l, In (k, l) (targeting c') ->
         In (k, l) (targeting c) \/
         (source l = k /\ enabled l = true /\ weaponOfEnabledOwner w (e :: es) c k))).
    { intros c1 H1 Hen H2.
      destruct (assignOwnerWeapons_prop _ _ _ _ H1) as (Hf1 & Hn1 & He1).
      destruct (IH c1 H2) as (Hf2 & Hn2 & He2).
      split; [eapply frame_trans; eauto |]. split; [auto |].
      intros k l Hin. destruct (He2 k l Hin) as [Hin1 | (Hs & Hen2 & owner & ws & Ho & Hoe & Hws & Hk)].
      - destruct (He1 k l Hin1) as [? | (Hs & Hen2 & ws & Hws & Hk)]; [auto |].
        right. split; [auto | split; [auto |]]. exists e, ws. simpl. auto.
      - right. split; [auto | split; [auto |]]. exists owner, ws.
        rewrite (frame_weaponSlots _ _ Hf1) in Hws. simpl. auto. }
    assert (Hrest : forall c1, assignOwners w es c = Some c1 -> c' = c1 ->
      c' = set_targeting (targeting c') c /\
      (NoDup (obj_keys (targeting c)) -> NoDup (obj_keys (targeting c'))) /\
      (forall k l, In (k, l) (targeting c') ->
         In (k, l) (targeting c) \/
         (source l = k /\ enabled l = true /\ weaponOfEnabledOwner w (e :: es) c k))).
    { intros c1 H ->. destruct (IH c H) as (Hf & Hn & He).
      split; [exact Hf |]. split; [exact Hn |].
      intros k l Hin. destruct (He k l Hin) as [? | (Hs & Hen & owner & ws & Ho & ?)]; [auto |].
      right. split; [auto | split; [auto |]]. exists owner, ws. simpl. auto. }
    unfold assignAgentWeapons, assignEnemyWeapons.
    destruct (String.eqb (entity_type e) EntityType_AGENT && agentTargetingEnabled w) eqn:Ea.
    + destruct (match obj_get (weaponSlots c) (entity_id e) with
                | None => None | Some ws => assignSlots (entities w) e (weaponIds ws) c end)
        as [c1 |] eqn:E1; [| discriminate].
      intro H2. eapply Hstep; eauto. unfold ownerEnabled. rewrite Ea. reflexivity.
    + destruct (String.eqb (entity_type e) EntityType_ENEMY && enemyTargetingEnabled w) eqn:Ee.
      * destruct (match obj_get (weaponSlots c) (entity_id e) with
                  | None => None | Some ws => assignSlots (entities w) e (weaponIds ws) c end)
          as [c1 |] eqn:E1; [| discriminate].
        intro H2. eapply Hstep; eauto. unfold ownerEnabled. rewrite Ea, Ee. reflexivity.
      * intro H. eapply Hrest; eauto.
Qed.

(** ** The assignment pass as a whole *)

(** [w] with its [components.targeting] replaced by [T]. *)
Definition withTargeting (T : obj TargetingComponent) (w : ECS) : ECS :=
  set_components (set_targeting T (components w)) w.

Lemma assignOwners_ext w1 w2 es c :
  entities w1 = entities w2 -> agentTargetingEnabled w1 = agentTargetingEnabled w2 ->
  enemyTargetingEnabled w1 = enemyTargetingEnabled w2 ->
  assignOwners w1 es c = assignOwners w2 es c.
Proof.
  intros He Ha Hn. revert c. induction es as [| e es IH]; intro c; simpl; [reflexivity |].
  rewrite He, Ha, Hn.
  destruct (String.eqb (entity_type e) EntityType_AGENT && agentTargetingEnabled w2).
  - destruct (assignAgentWeapons (entities w2) e c); [apply IH | reflexivity].
  - destruct (String.eqb (entity_type e) EntityType_ENEMY && enemyTargetingEnabled w2).
    + destruct (assignEnemyWeapons (entities w2) e c); [apply IH | reflexivity].
    + apply IH.
Qed.

(** The pass does not read the previous [targeting]. *)
Lemma WeaponAssignmentSystem_update_withTargeting w T :
  WeaponAssignmentSystem_update (withTargeting T w) = WeaponAssignmentSystem_update w.
Proof.
  destruct w as [es c n en ag con].
  unfold WeaponAssignmentSystem_update, withTargeting. simpl.
  rewrite set_targeting_twice.
  erewrite assignOwners_ext with (w2 := {| entities := es; components := c; nodeId := n;
    enemyTargetingEnabled := en; agentTargetingEnabled := ag; console := con |});
    [| reflexivity | reflexivity | reflexivity].
  simpl. destruct (assignOwners _ es (set_targeting [] c)); reflexivity.
Qed.

(** The pass changes [targeting] only; its entries are links keyed by their
    source, enabled, of weapons in the slots of enabled owners. *)
Lemma WeaponAssignmentSystem_update_prop w w' :
  WeaponAssignmentSystem_update w = Some w' ->
  w' = withTargeting (targeting (components w')) w /\
  NoDup (obj_keys (targeting (components w'))) /\
  (forall k l, In (k, l) (targeting (components w')) ->
     source l = k /\ enabled l = true /\
     weaponOfEnabledOwner w (entities w) (components w) k).
Proof.
  unfold WeaponAssignmentSystem_update.
  destruct (assignOwners w (entities w) (set_targeting [] (components w))) as [c |] eqn:E;
    [| discriminate].
  intro H. inversion H; subst; clear H.
  destruct (assignOwners_prop _ _ _ _ E) as (Hf & Hn & He). simpl.
  split; [| split].
  - unfold withTargeting. simpl. rewrite Hf at 1. rewrite set_targeting_twice. reflexivity.
  - apply Hn. constructor.
  - intros k l Hin. destruct (He k l Hin) as [[] | (Hs & Hen & owner & ws & Ho & Hoe & Hws & Hk)].
    split; [auto | split; [auto |]]. exists owner, ws. auto.
Qed.

(** Keys distinct and each link keyed by its source. *)
Definition tgInv (tg : obj TargetingComponent) : Prop :=
  NoDup (obj_keys tg) /\ (forall k l, In (k, l) tg -> source l = k).

(** The enabled links of [tg] whose source is [weaponId]. *)
Definition linksFrom (tg : obj TargetingComponent) (weaponId : nat) : list TargetingComponent :=
  filter (fun l => Nat.eqb (source l) weaponId && enabled l) (obj_values tg).

Lemma linksFrom_nil tg wid :
  (forall k l, In (k, l) tg -> source l = k) -> ~ In wid (obj_keys tg) -> linksFrom tg wid = [].
Proof.
  unfold linksFrom, obj_values, obj_keys.
  induction tg as [| [k l] tg IH]; simpl; intros Hs Hn; [reflexivity |].
  rewrite (Hs k l (or_introl eq_refl)).
  destruct (Nat.eqb k wid) eqn:E; [apply Nat.eqb_eq in E; subst; tauto |].
  simpl. apply IH; [intros k0 l0 H0; apply Hs; right; exact H0 | tauto].
Qed.

Lemma linksFrom_le1 tg wid : tgInv tg -> List.length (linksFrom tg wid) <= 1.
Proof.
  intros [Hnd Hs]. unfold tgInv, linksFrom, obj_values, obj_keys in *.
  induction tg as [| [k l] tg IH]; simpl; [lia |].
  inversion Hnd as [| ? ? Hk Hnd']; subst.
  assert (Hs' : forall k l, In (k, l) tg -> source l = k)
    by (intros k0 l0 H0; apply Hs; right; exact H0).
  rewrite (Hs k l (or_introl eq_refl)).
  destruct (Nat.eqb k wid && enabled l) eqn:E.
  - apply andb_true_iff in E. destruct E as [E _]. apply Nat.eqb_eq in E. subst.
    pose proof (linksFrom_nil tg wid Hs' Hk) as Hnil. unfold linksFrom, obj_values in Hnil.
    simpl. rewrite Hnil. simpl. lia.
  - apply IH; auto.
Qed.

Lemma assignWeaponToTarget_tgInv ents wid owner c c' :
  assignWeaponToTarget ents wid owner c = Some c' -> tgInv (targeting c) -> tgInv (targeting c').
Proof.
  intros H [Hnd Hs]. destruct (assignWeaponToTarget_shape _ _ _ _ _ H) as [-> | Hr];
    [split; auto |].
  split; [eapply records_NoDup; eauto |].
  intros k l Hin. destruct (records_entries _ _ _ _ Hr k l Hin) as [Hin' | (-> & ? & _)];
    [eapply Hs; eauto | auto].
Qed.

Lemma WeaponAssignmentSystem_update_initial :
  WeaponAssignmentSystem_update initialECS = Some initialECS.
Proof. reflexivity. Qed.

(** C3: the assignment pass starts from an empty [targeting] object and
    rebuilds it from the rest of the store: whatever [targeting] held before
    the pass, the pass yields the same state; only [targeting] differs from
    the input; and every entry of the result was written by this pass (a link
    keyed by its source weapon, enabled, for a weapon in a slot of an entity
    whose class flag is on). *)
Theorem WeaponAssignmentSystem_update_rebuilds :
  forall (w : ECS) (T : obj TargetingComponent) (w' : ECS),
    WeaponAssignmentSystem_update w = Some w' ->
    WeaponAssignmentSystem_update (withTargeting T w) = Some w' /\
    w' = withTargeting (targeting (components w')) w /\
    (forall k l, In (k, l) (targeting (components w')) ->
       source l = k /\ enabled l = true /\
       weaponOfEnabledOwner w (entities w) (components w) k).
Proof.
  intros w T w' H.
  rewrite WeaponAssignmentSystem_update_withTargeting.
  destruct (WeaponAssignmentSystem_update_prop _ _ H) as (Hf & _ & He).
  auto.
Qed.

Lemma WeaponAssignmentSystem_update_rebuilds_witness :
  WeaponAssignmentSystem_update
    (withTargeting [(4, {| source := 4; target := 0; color := "purple"; enabled := true |})]
       initialECS) = Some initialECS.
Proof.
  exact (proj1 (WeaponAssignmentSystem_update_rebuilds initialECS _ initialECS
                  WeaponAssignmentSystem_update_initial)).
Defined.

(** C6: after the assignment pass every weapon id is the source of at most
    one enabled [targeting] entry; and at every call of
    [assignWeaponToTarget] during the pass this stays so (distinct keys, each
    link keyed by its source), and a link the call adds never repeats a
    (weapon, target) pair that was already present: a weapon whose only
    candidates are already targeted by itself gets no new link. *)
Theorem WeaponAssignmentSystem_update_one_link_per_weapon :
  forall w w' : ECS,
    WeaponAssignmentSystem_update w = Some w' ->
    (forall weaponId, List.length (linksFrom (targeting (components w')) weaponId) <= 1) /\
    (forall ents weaponId owner c c',
       assignWeaponToTarget ents weaponId owner c = Some c' ->
       (tgInv (targeting c) ->
          tgInv (targeting c') /\
          forall wid, List.length (linksFrom (targeting c') wid) <= 1) /\
       (forall l, In l (obj_values (targeting c')) -> ~ In l (obj_values (targeting c)) ->
          source l = weaponId /\ alreadyTargeted (targeting c) weaponId (target l) = false)).
Proof.
  intros w w' H. split.
  - intro wid. apply linksFrom_le1.
    destruct (WeaponAssignmentSystem_update_prop _ _ H) as (_ & Hn & He).
    split; [exact Hn | intros k l Hin; apply (He k l Hin)].
  - intros ents wid owner c c' Ha. split.
    + intro Hi. pose proof (assignWeaponToTarget_tgInv _ _ _ _ _ Ha Hi) as Hi'.
      split; [exact Hi' | intro; apply linksFrom_le1; exact Hi'].
    + intros l Hin Hnin.
      destruct (assignWeaponToTarget_shape _ _ _ _ _ Ha) as [-> | (wpn & tgt & _ & Hnt & ->)];
        [contradiction |].
      apply In_obj_values in Hin. destruct Hin as [k Hin]. simpl in Hin.
      apply In_obj_set in Hin. destruct Hin as [[-> ->] | Hin].
      * simpl. auto.
      * exfalso. apply Hnin. apply In_obj_values. eauto.
Qed.

(** C9: running the assignment pass again on its own result, with nothing
    else changed, yields the same state, hence the same [targeting]. *)
Theorem WeaponAssignmentSystem_update_idempotent :
  forall w w1 : ECS,
    WeaponAssignmentSystem_update w = Some w1 ->
    WeaponAssignmentSystem_update w1 = Some w1.
Proof.
  intros w w1 H.
  destruct (WeaponAssignmentSystem_update_prop _ _ H) as (Hf & _ & _).
  rewrite Hf at 1. rewrite WeaponAssignmentSystem_update_withTargeting. exact H.
Qed.

(** An agent at (0,0) with a rifle and a pistol, and a tank at (0,0) whose
    parts are all at (0,0), built through the API. *)
Definition demoECS : ECS :=
  match api_addAgent 0 0 "pistol" initialECS with
  | None => initialECS
  | Some w =>
      match api_addEnemy "tank" 0 0 (fun _ => (0%R, 0%R)) w with
      | None => initialECS
      | Some w' => w'
      end
  end.

Definition demoAssigned : ECS :=
  match WeaponAssignmentSystem_update demoECS with Some w => w | None => demoECS end.

Lemma WeaponAssignmentSystem_update_idempotent_witness :
  WeaponAssignmentSystem_update demoAssigned = Some demoAssigned.
Proof.
  apply (WeaponAssignmentSystem_update_idempotent demoECS).
  vm_compute. reflexivity.
Defined.

(** ** Damage resolution removes what it kills *)

Definition ids (es : list Entity) : list nat := map entity_id es.

(** Every id that has an entry in some component object. *)
Definition componentKeys (c : Components) : list nat :=
  obj_keys (position c) ++ obj_keys (health c) ++ obj_keys (weaponSlots c)
  ++ obj_keys (weapon c) ++ obj_keys (enemyType_c c) ++ obj_keys (targetPartType c)
  ++ obj_keys (targeting c).

(** No hit-point entry is at or below zero. *)
Definition healthPositive (c : Components) : Prop :=
  forall k h, In (k, h) (health c) -> (0 < value h)%Z.

Lemma keys_delete {A} k (m : obj A) a :
  In a (obj_keys (obj_delete k m)) <-> a <> k /\ In a (obj_keys m).
Proof.
  unfold obj_keys, obj_delete. rewrite !in_map_iff. split.
  - intros [[a' b] [Ha Hin]]. simpl in Ha. subst. apply filter_In in Hin.
    destruct Hin as [Hin Hn]. simpl in Hn. apply negb_true_iff, Nat.eqb_neq in Hn.
    split; [auto |]. eexists; split; [| exact Hin]; reflexivity.
  - intros [Hne [[a' b] [Ha Hin]]]. simpl in Ha. subst. exists (a, b). split; [reflexivity |].
    apply filter_In. split; [exact Hin |]. simpl. apply negb_true_iff, Nat.eqb_neq. auto.
Qed.

Lemma keys_insert_incl {A} k (v : A) m a : In a (obj_keys m) -> In a (obj_keys (obj_insert k v m)).
Proof.
  induction m as [| [a' b] m IH]; simpl; [tauto |].
  destruct (Nat.ltb k a'); simpl; intros [H | H]; auto.
Qed.

Lemma keys_obj_set {A} k (v : A) m a :
  In a (obj_keys (obj_set k v m)) -> a = k \/ In a (obj_keys m).
Proof.
  unfold obj_set. destruct (obj_has m k).
  - rewrite obj_keys_replace. auto.
  - apply In_keys_insert.
Qed.

Lemma keys_obj_set_incl {A} k (v : A) m a :
  In a (obj_keys m) -> In a (obj_keys (obj_set k v m)).
Proof.
  unfold obj_set. destruct (obj_has m k).
  - rewrite obj_keys_replace. auto.
  - apply keys_insert_incl.
Qed.

Lemma componentKeys_delete tid c a :
  In a (componentKeys (deleteAllComponents tid c)) -> a <> tid /\ In a (componentKeys c).
Proof.
  unfold componentKeys, deleteAllComponents. simpl. rewrite !in_app_iff, !keys_delete.
  intuition.
Qed.

Lemma componentKeys_set_health tid hv c a :
  In a (componentKeys (set_health (obj_set tid hv (health c)) c)) ->
  a = tid \/ In a (componentKeys c).
Proof.
  unfold componentKeys. simpl. rewrite !in_app_iff. intros H.
  destruct H as [H | [H | H]]; [auto | | auto].
  apply keys_obj_set in H. tauto.
Qed.

Lemma nth_error_split_at (es : list Entity) i e :
  nth_error es i = Some e -> es = firstn i es ++ e :: skipn (S i) es.
Proof.
  revert i. induction es as [| e' es IH]; intros [| i]; simpl; try discriminate.
  - intro H. inversion H. reflexivity.
  - intro H. rewrite <- (IH i H) at 1. reflexivity.
Qed.

Lemma indexOf_spec es id :
  In id (ids es) ->
  exists i e, indexOf es id = Z.of_nat i /\ nth_error es i = Some e /\ entity_id e = id.
Proof.
  induction es as [| e es IH]; simpl; [tauto |].
  destruct (Nat.eqb (entity_id e) id) eqn:E.
  - intros _. apply Nat.eqb_eq in E. exists 0, e. auto.
  - apply Nat.eqb_neq in E. intros [H | H]; [contradiction |].
    destruct (IH H) as (i & e' & Hi & Hn & He). rewrite Hi.
    exists (S i), e'. split; [| auto].
    destruct i; [reflexivity |]. rewrite Nat2Z.inj_succ with (n := S i).
    simpl. reflexivity.
Qed.

Lemma splice1_at es i e :
  nth_error es i = Some e -> splice1 es (Z.of_nat i) = firstn i es ++ skipn (S i) es.
Proof.
  intro H. unfold splice1.
  assert (Hlt : i < List.length es) by (apply nth_error_Some; congruence).
  replace (Z.of_nat i <? 0)%Z with false by (symmetry; apply Z.ltb_ge; lia).
  rewrite Z.min_l by lia. rewrite Nat2Z.id. reflexivity.
Qed.

(** [killEntity] on a listed entity, ids distinct: it removes exactly that
    entity from the list. *)
Lemma killEntity_entities w tgt :
  NoDup (ids (entities w)) -> In tgt (entities w) ->
  let es' := entities (killEntity tgt w) in
  (forall e, In e es' -> In e (entities w)) /\ NoDup (ids es') /\
  ~ In (entity_id tgt) (ids es') /\
  (forall e, In e (entities w) -> entity_id e <> entity_id tgt -> In e es').
Proof.
  intros Hnd Hin. simpl.
  assert (Hid : In (entity_id tgt) (ids (entities w))) by (apply in_map; exact Hin).
  destruct (indexOf_spec _ _ Hid) as (i & e & Hi & Hn & He). rewrite Hi.
  rewrite (splice1_at _ _ _ Hn).
  pose proof (nth_error_split_at _ _ _ Hn) as Hsplit.
  set (l1 := firstn i (entities w)) in *. set (l2 := skipn (S i) (entities w)) in *.
  rewrite Hsplit in Hnd. unfold ids in Hnd. rewrite map_app in Hnd. simpl in Hnd.
  split; [| split; [| split]].
  - intros e' H'. rewrite Hsplit. apply in_app_iff in H'. apply in_app_iff. simpl. tauto.
  - unfold ids. rewrite map_app. eapply NoDup_remove_1. exact Hnd.
  - rewrite <- He. unfold ids. rewrite map_app. eapply NoDup_remove_2. exact Hnd.
  - intros e' H' Hne. rewrite Hsplit in H'. apply in_app_iff in H'. apply in_app_iff.
    destruct H' as [H' | [H' | H']]; [auto | subst; contradiction | auto].
Qed.

(** The three outcomes of one link of the damage loop. *)
Lemma damageLink_cases rnd k w n w' n' :
  damageLink rnd k (w, n) = Some (w', n') ->
  w' = w \/
  (exists tgt v, In tgt (entities w) /\ (0 < v)%Z /\
     w' = set_components (set_health (obj_set (entity_id tgt) {| value := v |}
                                        (health (components w))) (components w)) w) \/
  (exists tgt v, In tgt (entities w) /\ (v <= 0)%Z /\
     w' = killEntity tgt
            (set_components (set_health (obj_set (entity_id tgt) {| value := v |}
                                           (health (components w))) (components w)) w)).
Proof.
  unfold damageLink.
  destruct (obj_get (targeting (components w)) k) as [link |];
    [| intro H; inversion H; auto].
  destruct (negb (enabled link)); [intro H; inversion H; auto |].
  destruct (obj_get (weapon (components w)) k) as [wpn |];
    [| intro H; inversion H; auto].
  destruct (find (fun e => Nat.eqb (entity_id e) (target link)) (entities w)) as [tgt |] eqn:F;
    [| intro H; inversion H; auto].
  apply find_some in F. destruct F as [Hin _].
  destruct (WeaponStats (weaponType wpn)) as [st |]; [| discriminate].
  destruct (obj_get (position (components w)) (source link)) as [sp |]; [| discriminate].
  destruct (obj_get (position (components w)) (entity_id tgt)) as [tp |]; [| discriminate].
  destruct (WeaponRangeConfig (weaponType wpn)) as [[mn mx] |]; [| discriminate].
  destruct (Rltb _ _); [| intro H; inversion H; auto].
  destruct (obj_get (health (components w)) (entity_id tgt)) as [h |]; [| discriminate].
  destruct (value h - damage st <=? 0)%Z eqn:E; intro H; inversion H; subst; clear H.
  - right. right. exists tgt, (value h - damage st)%Z. apply Z.leb_le in E. auto.
  - right. left. exists tgt, (value h - damage st)%Z. apply Z.leb_gt in E. auto.
Qed.

(** What the damage loop keeps true, relative to the state [w0] it started from. *)
Definition damageInv (w0 w : ECS) : Prop :=
  NoDup (ids (entities w)) /\
  healthPositive (components w) /\
  (forall e, In e (entities w) -> In e (entities w0)) /\
  (forall e, In e (entities w) -> In (entity_id e) (obj_keys (health (components w0))) ->
             In (entity_id e) (obj_keys (health (components w)))) /\
  (forall id, In id (ids (entities w0)) -> ~ In id (ids (entities w)) ->
              ~ In id (componentKeys (components w))).

Lemma damageInv_init w :
  NoDup (ids (entities w)) -> healthPositive (components w) -> damageInv w w.
Proof.
  intros Hnd Hh. split; [auto | split; [auto | split; [auto | split; [auto |]]]].
  intros id H1 H2. contradiction.
Qed.

Lemma damageLink_inv rnd k w0 w n w' n' :
  damageInv w0 w -> damageLink rnd k (w, n) = Some (w', n') -> damageInv w0 w'.
Proof.
  intros (Hnd & Hh & Hsub & Hkeep & Hpurge) H.
  destruct (damageLink_cases _ _ _ _ _ _ H) as [-> | [(tgt & v & Hin & Hv & ->) | (tgt & v & Hin & Hv & ->)]].
  - repeat split; auto.
  - assert (Htid : In (entity_id tgt) (ids (entities w))) by (apply in_map; exact Hin).
    split; [exact Hnd |]. split; [| split; [exact Hsub | split]].
    + intros k' h Hk. simpl in Hk. apply In_obj_set in Hk.
      destruct Hk as [[_ ->] | Hk]; [exact Hv | eapply Hh; eauto].
    + intros e He Hk. simpl. apply keys_obj_set_incl. apply Hkeep; auto.
    + intros id H1 H2 H3. simpl in H2.
      apply componentKeys_set_health in H3. destruct H3 as [-> | H3]; [contradiction |].
      exact (Hpurge id H1 H2 H3).
  - set (w1 := set_components (set_health (obj_set (entity_id tgt) {| value := v |}
                                             (health (components w))) (components w)) w).
    assert (Hnd1 : NoDup (ids (entities w1))) by exact Hnd.
    assert (Hin1 : In tgt (entities w1)) by exact Hin.
    destruct (killEntity_entities w1 tgt Hnd1 Hin1) as (Ksub & Knd & Knin & Kkeep).
    simpl in Ksub, Knd, Knin, Kkeep.
    split; [exact Knd |]. split; [| split; [| split]].
    + intros k' h Hk. simpl in Hk. apply filter_In in Hk. destruct Hk as [Hk Hne].
      simpl in Hne. apply negb_true_iff, Nat.eqb_neq in Hne.
      apply In_obj_set in Hk. destruct Hk as [[Hk' _] | Hk]; [congruence | eapply Hh; eauto].
    + intros e He. apply Hsub. apply Ksub. simpl in He. exact He.
    + intros e He Hk. simpl.
      assert (Hne : entity_id e <> entity_id tgt).
      { intro Heq. apply Knin. apply in_map_iff. exists e. simpl in He. auto. }
      apply keys_delete. split; [exact Hne |].
      apply keys_obj_set_incl. apply Hkeep; [apply Ksub; simpl in He; exact He | exact Hk].
    + intros id H1 H2 H3. simpl in H2. unfold killEntity in H3. simpl in H3.
      apply componentKeys_delete in H3. destruct H3 as [Hne H3].
      apply componentKeys_set_health in H3. destruct H3 as [-> | H3]; [contradiction |].
      apply (Hpurge id H1); [| exact H3].
      intro Hw. unfold ids in Hw. apply in_map_iff in Hw. destruct Hw as [e [He Hew]].
      apply H2. rewrite <- He. apply in_map. apply Kkeep; [exact Hew | congruence].
Qed.

Lemma damageLoop_inv rnd keys w0 w n w' n' :
  damageInv w0 w -> damageLoop rnd keys (w, n) = Some (w', n') -> damageInv w0 w'.
Proof.
  revert w n. induction keys as [| k keys IH]; intros w n Hi; cbn [damageLoop].
  - intro H. inversion H; subst. exact Hi.
  - destruct (damageLink rnd k (w, n)) as [[w1 n1] |] eqn:E; [| discriminate].
    apply IH. eapply damageLink_inv; eauto.
Qed.

(** C4: starting from a store whose entity ids are distinct and whose
    hit points are all positive, after every link of the damage loop (so
    immediately after a hit brings a target to zero or below, before the next
    link) and after the whole pass: no hit-point entry is at or below zero,
    an entity still listed keeps the hit-point entry it had (so a target
    driven to zero or below is no longer listed), the list only loses
    entities, and an entity no longer listed has no entry left in any
    component object. *)
Theorem DamageSystem_update_removes_dead :
  forall (rnd : nat -> R) (w : ECS),
    NoDup (ids (entities w)) -> healthPositive (components w) ->
    (forall keys w1 n1, damageLoop rnd keys (w, 0) = Some (w1, n1) -> damageInv w w1) /\
    (forall w', DamageSystem_update rnd w = Some w' ->
       healthPositive (components w') /\
       (forall e, In e (entities w') -> In e (entities w)) /\
       (forall e, In e (entities w') -> In (entity_id e) (obj_keys (health (components w))) ->
                  In (entity_id e) (obj_keys (health (components w')))) /\
       (forall id, In id (ids (entities w)) -> ~ In id (ids (entities w')) ->
                   ~ In id (componentKeys (components w')))).
Proof.
  intros rnd w Hnd Hh.
  pose proof (damageInv_init w Hnd Hh) as Hi.
  split.
  - intros keys w1 n1 H. eapply damageLoop_inv; eauto.
  - intros w' H. unfold DamageSystem_update in H.
    destruct (damageLoop rnd (obj_keys (targeting (components w))) (w, 0)) as [[w1 n1] |] eqn:E;
      [| discriminate].
    inversion H; subst.
    destruct (damageLoop_inv _ _ _ _ _ _ _ Hi E) as (_ & Hh' & Hsub & Hkeep & Hpurge).
    auto.
Qed.

Definition demoDamaged : ECS :=
  match DamageSystem_update (fun _ => 0%R) demoAssigned with Some w => w | None => demoAssigned end.

Lemma DamageSystem_update_removes_dead_witness :
  healthPositive (components demoDamaged).
Proof.
  assert (Hnd : NoDup (ids (entities demoAssigned))).
  { vm_compute. repeat constructor; simpl; intuition discriminate. }
  assert (Hh : healthPositive (components demoAssigned)).
  { unfold healthPositive. vm_compute.
    intros k h Hk. repeat destruct Hk as [Hk | Hk]; try contradiction;
      inversion Hk; subst; vm_compute; reflexivity. }
  assert (Hrun : DamageSystem_update (fun _ => 0%R) demoAssigned = Some demoDamaged).
  { vm_compute. reflexivity. }
  exact (proj1 (proj2 (DamageSystem_update_removes_dead (fun _ => 0%R) demoAssigned Hnd Hh)
                  demoDamaged Hrun)).
Defined.

(** ** The entity list holds agents and enemies only *)

Definition agentOrEnemy (e : Entity) : Prop :=
  entity_type e = EntityType_AGENT \/ entity_type e = EntityType_ENEMY.

Lemma addWeaponToEntity_entities entityId wt w w' :
  addWeaponToEntity entityId wt w = Some w' ->
  entities w' = entities w /\ nodeId w' = S (nodeId w).
Proof.
  unfold addWeaponToEntity.
  destruct (obj_get _ entityId) as [p |]; [| discriminate].
  destruct (obj_get (weaponSlots _) entityId) as [ws |]; [| discriminate].
  destruct (addWeapon _ _ _) as [ws' log]. intro H. inversion H; subst. auto.
Qed.

Lemma addTargetPartToEntity_entities enemyId pt px py w :
  entities (addTargetPartToEntity enemyId pt px py w) = entities w /\
  nodeId (addTargetPartToEntity enemyId pt px py w) = S (nodeId w).
Proof. split; reflexivity. Qed.

Lemma addParts_entities enemyId parts pp i w :
  entities (addParts enemyId parts pp i w) = entities w.
Proof.
  revert i w. induction parts as [| p parts IH]; intros i w; simpl; [reflexivity |].
  rewrite IH. reflexivity.
Qed.

Lemma addWeaponIf_entities b id wt w w' :
  addWeaponIf b id wt w = Some w' -> entities w' = entities w.
Proof.
  unfold addWeaponIf. destruct b.
  - intro H. apply (addWeaponToEntity_entities _ _ _ _ H).
  - intro H. inversion H. reflexivity.
Qed.

Lemma api_addAgent_entities px py wt w w' :
  api_addAgent px py wt w = Some w' ->
  exists e, entities w' = entities w ++ [e] /\ entity_type e = EntityType_AGENT.
Proof.
  unfold api_addAgent. simpl.
  destruct (addWeaponToEntity _ "rifle" _) as [w3 |] eqn:E3; [| discriminate].
  intro H. apply addWeaponToEntity_entities in H. apply addWeaponToEntity_entities in E3.
  destruct H as [H _]. destruct E3 as [E3 _].
  rewrite H, E3. simpl. eexists. split; reflexivity.
Qed.

Lemma api_addEnemy_entities et px py pp w w' :
  api_addEnemy et px py pp w = Some w' ->
  exists e, entities w' = entities w ++ [e] /\ entity_type e = EntityType_ENEMY.
Proof.
  unfold api_addEnemy. cbv zeta.
  destruct (addEntity EntityType_ENEMY w) as [eid w1] eqn:Ea.
  destruct (table_get EntityStats et) as [hp |]; [| discriminate].
  match goal with |- match ?m with _ => _ end = _ -> _ =>
    destruct m as [w3 |] eqn:E3; [| discriminate] end.
  match goal with |- match ?m with _ => _ end = _ -> _ =>
    destruct m as [w4 |] eqn:E4; [| discriminate] end.
  match goal with |- match ?m with _ => _ end = _ -> _ =>
    destruct m as [w5 |] eqn:E5; [| discriminate] end.
  match goal with |- match ?m with _ => _ end = _ -> _ =>
    destruct m as [w6 |] eqn:E6; [| discriminate] end.
  intro H. inversion H; subst; clear H.
  rewrite addParts_entities.
  apply addWeaponIf_entities in E3, E4, E5, E6.
  rewrite E6, E5, E4, E3. unfold addEntity in Ea. inversion Ea; subst. simpl.
  eexists. split; reflexivity.
Qed.

Lemma splice1_incl es s e : In e (splice1 es s) -> In e es.
Proof.
  unfold splice1. cbv zeta. generalize (Z.to_nat (if (s <? 0)%Z
    then Z.max 0 (Z.of_nat (List.length es) + s) else Z.min s (Z.of_nat (List.length es)))).
  intros m H. apply in_app_iff in H.
  destruct H as [H | H];
    [ rewrite <- (firstn_skipn m es); apply in_app_iff; left; exact H
    | rewrite <- (firstn_skipn (S m) es); apply in_app_iff; right; exact H ].
Qed.

Lemma DamageSystem_update_entities_incl rnd w w' :
  DamageSystem_update rnd w = Some w' -> forall e, In e (entities w') -> In e (entities w).
Proof.
  unfold DamageSystem_update.
  assert (Hloop : forall keys w0 n0 w1 n1, damageLoop rnd keys (w0, n0) = Some (w1, n1) ->
                  forall e, In e (entities w1) -> In e (entities w0)).
  { induction keys as [| k keys IH]; intros w0 n0 w1 n1; cbn [damageLoop].
    - intro H. inversion H; subst. auto.
    - destruct (damageLink rnd k (w0, n0)) as [[wm nm] |] eqn:E; [| discriminate].
      intros H e He. specialize (IH _ _ _ _ H e He).
      destruct (damageLink_cases _ _ _ _ _ _ E)
        as [-> | [(tgt & v & _ & _ & ->) | (tgt & v & _ & _ & ->)]]; [exact IH | exact IH |].
      exact (splice1_incl _ _ _ IH). }
  destruct (damageLoop rnd _ (w, 0)) as [[w1 n1] |] eqn:E; [| discriminate].
  intro H. inversion H; subst. eapply Hloop; eauto.
Qed.

Lemma reachable_agentOrEnemy w : reachable w -> Forall agentOrEnemy (entities w).
Proof.
  induction 1 as [| w px py wt w' _ IH _ H | w et px py pp w' _ IH _ H | w _ IH | w _ IH
                 | w rnd w' _ IH _ H].
  - constructor.
  - destruct (api_addAgent_entities _ _ _ _ _ H) as (e & -> & He).
    apply Forall_app. split; [exact IH | constructor; [left; exact He | constructor]].
  - destruct (api_addEnemy_entities _ _ _ _ _ _ H) as (e & -> & He).
    apply Forall_app. split; [exact IH | constructor; [right; exact He | constructor]].
  - exact IH.
  - exact IH.
  - unfold ECS_update in H.
    destruct (WeaponAssignmentSystem_update w) as [w1 |] eqn:E1; [| discriminate].
    destruct (WeaponAssignmentSystem_update_prop _ _ E1) as (Hf & _ & _).
    apply Forall_forall. intros e He.
    pose proof (DamageSystem_update_entities_incl _ _ _ H e He) as He1.
    rewrite Hf in He1. simpl in He1.
    rewrite Forall_forall in IH. apply IH. exact He1.
Qed.

(** C10: [addWeaponToEntity] and [addTargetPartToEntity] take a fresh id from
    [nodeId] but leave the entity list as it is; so in every reachable state
    the entity list holds agents and enemies only, and every [find] over it
    (the primary and specific candidate searches, the damage target lookup)
    returns an agent or an enemy. *)
Theorem spawn_helpers_register_no_entity :
  (forall entityId wt w w', addWeaponToEntity entityId wt w = Some w' ->
     entities w' = entities w /\ nodeId w' = S (nodeId w)) /\
  (forall enemyId pt px py w,
     entities (addTargetPartToEntity enemyId pt px py w) = entities w /\
     nodeId (addTargetPartToEntity enemyId pt px py w) = S (nodeId w)) /\
  (forall w, reachable w ->
     Forall agentOrEnemy (entities w) /\
     (forall (f : Entity -> bool) e, find f (entities w) = Some e -> agentOrEnemy e)).
Proof.
  split; [exact addWeaponToEntity_entities |].
  split; [exact addTargetPartToEntity_entities |].
  intros w Hr. pose proof (reachable_agentOrEnemy w Hr) as Hf.
  split; [exact Hf |].
  intros f e He. apply find_some in He. destruct He as [He _].
  rewrite Forall_forall in Hf. apply Hf. exact He.
Qed.

(** ** Specific-target preferences *)

Lemma specificCandidate_None ents tg weaponId targetType specificTargetType :
  specificCandidate ents tg weaponId targetType specificTargetType = None.
Proof.
  unfold specificCandidate. induction ents as [| e ents IH]; simpl; [reflexivity |].
  rewrite IH. destruct (String.eqb (entity_type e) EntityType_TARGET_PART); simpl;
    [| reflexivity].
  destruct (ec_targetPartType (entity_components e)) as [tp |]; simpl; [| reflexivity].
  unfold strictEq_number_string. rewrite andb_false_r. reflexivity.
Qed.

Lemma trySpecific_nothing ents c weaponId owner wpn st :
  trySpecific ents c weaponId owner wpn st = Some None.
Proof.
  induction st as [| [targetType parts] st IH]; simpl; [reflexivity |].
  assert (Hp : trySpecificParts ents c weaponId owner wpn targetType parts = Some None).
  { induction parts as [| p parts IHp]; simpl; [reflexivity |].
    rewrite specificCandidate_None. simpl. exact IHp. }
  rewrite Hp. exact IH.
Qed.

(** C2 (code bug): the specific-target search never assigns anything: every
    candidate search over the entity list comes back empty, so
    [trySpecific] always reports that nothing was assigned.  On the state of
    one agent with a rifle and a pistol and one tank with its parts, all at the
    origin, the rifle has an in-range [heat sink] part of a tank (the
    [specificTargets] entry of the rifle) and still no targeting entry is
    recorded by the assignment pass. *)
Theorem specific_targets_never_assigned :
  (forall ents c weaponId owner wpn st,
     trySpecific ents c weaponId owner wpn st = Some None) /\
  obj_values (targetPartType (components demoECS)) <> [] /\
  option_map (fun w => targeting (components w)) (WeaponAssignmentSystem_update demoECS)
    = Some [].
Proof.
  split; [exact trySpecific_nothing |].
  split; [vm_compute; discriminate | vm_compute; reflexivity].
Qed.

(** ** Adding a weapon to a full slot array *)

Lemma obj_get_replace_same {A} k (v : A) m :
  obj_get (obj_replace k v m) k = option_map (fun _ => v) (obj_get m k).
Proof.
  unfold obj_replace. induction m as [| [k' v'] m IH]; simpl; [reflexivity |].
  destruct (Nat.eqb k k') eqn:E; simpl.
  - rewrite Nat.eqb_refl. reflexivity.
  - rewrite E. exact IH.
Qed.

Lemma obj_get_insert_same {A} k (v : A) m :
  obj_get m k = None -> obj_get (obj_insert k v m) k = Some v.
Proof.
  induction m as [| [k' v'] m IH]; simpl; intro H.
  - rewrite Nat.eqb_refl. reflexivity.
  - destruct (Nat.eqb k k') eqn:E; [discriminate |].
    destruct (Nat.ltb k k'); simpl; [rewrite Nat.eqb_refl; reflexivity |].
    rewrite E. exact (IH H).
Qed.

Lemma obj_get_set_same {A} k (v : A) m : obj_get (obj_set k v m) k = Some v.
Proof.
  unfold obj_set, obj_has. destruct (obj_get m k) eqn:E.
  - rewrite obj_get_replace_same, E. reflexivity.
  - exact (obj_get_insert_same _ _ _ E).
Qed.

(** C8 (code bug): adding a weapon to an entity whose slots are all taken
    does not throw and leaves the slots as they were, with a warning on the
    console; but the store does change: the id counter has moved on and a
    weapon component (and a position) has been attached under the new id,
    a weapon that sits in no slot. *)
Theorem addWeaponToEntity_full_slots entityId wt w p ws :
  obj_get (position (components w)) entityId = Some p ->
  obj_get (weaponSlots (components w)) entityId = Some ws ->
  ~ In None (weaponIds ws) ->
  exists w', addWeaponToEntity entityId wt w = Some w' /\
    console w' = (console w ++ [Warn "Entity has no available weapon slots."])%list /\
    obj_get (weaponSlots (components w')) entityId = Some ws /\
    nodeId w' = S (nodeId w) /\
    obj_get (weapon (components w')) (nodeId w) = Some {| weaponType := wt |} /\
    w' <> w.
Proof.
  intros Hp Hws Hfull.
  assert (Hff : fillFirstEmpty (weaponIds ws) (nodeId w) = None).
  { clear Hws. induction (weaponIds ws) as [| [i |] ids IH]; simpl; [reflexivity | |].
    - rewrite IH; [reflexivity |]. intro H. apply Hfull. right. exact H.
    - exfalso. apply Hfull. left. reflexivity. }
  unfold addWeaponToEntity. simpl. rewrite Hp. simpl. rewrite Hws.
  unfold addWeapon. rewrite Hff.
  eexists. split; [reflexivity |]. simpl.
  split; [reflexivity |].
  split; [apply obj_get_set_same |].
  split; [reflexivity |].
  split; [apply obj_get_set_same |].
  intro H. apply (f_equal nodeId) in H. simpl in H. lia.
Qed.

Definition demoFullEnemy : nat := 3.

Lemma addWeaponToEntity_full_slots_witness :
  exists w', addWeaponToEntity demoFullEnemy "melee" demoECS = Some w' /\
    console w' = (console demoECS ++ [Warn "Entity has no available weapon slots."])%list /\
    obj_get (weaponSlots (components w')) demoFullEnemy
      = obj_get (weaponSlots (components demoECS)) demoFullEnemy /\
    nodeId w' = S (nodeId demoECS) /\
    obj_get (weapon (components w')) (nodeId demoECS) = Some {| weaponType := "melee" |} /\
    w' <> demoECS.
Proof.
  assert (Hp : exists p, obj_get (position (components demoECS)) demoFullEnemy = Some p).
  { vm_compute. eexists. reflexivity. }
  assert (Hws : exists ws, obj_get (weaponSlots (components demoECS)) demoFullEnemy = Some ws).
  { vm_compute. eexists. reflexivity. }
  destruct Hp as [p Hp]. destruct Hws as [ws Hws].
  assert (Hfull : ~ In None (weaponIds ws)).
  { revert Hws. vm_compute. intro H. inversion H. simpl. intuition discriminate. }
  rewrite Hws.
  exact (addWeaponToEntity_full_slots demoFullEnemy "melee" demoECS p ws Hp Hws Hfull).
Defined.

(** ** The primary search tries one candidate per preference type *)







Definition c1Agent : Entity :=
  {| entity_id := 0; entity_type := EntityType_AGENT;
     entity_components := {| ec_targetPartType := None |} |}.



Lemma c1_near_in_range :
  Rleb (distance {| x := 0; y := 0 |} {| x := 0; y := 0 |}) 1 = true.
Proof.
  unfold Rleb, distance. simpl.
  replace ((0 - 0) * ((0 - 0) * 1) + (0 - 0) * ((0 - 0) * 1))%R with 0%R by ring.
  rewrite sqrt_0. destruct (Rle_dec 0 1); [reflexivity | lra].
Qed.


(** * Further properties of the simulation *)

Lemma obj_get_set_other {A} k (v : A) m k' :
  k <> k' -> obj_get (obj_set k v m) k' = obj_get m k'.
Proof.
  intro Hne. unfold obj_set.
  destruct (obj_has m k).
  - unfold obj_replace. induction m as [| [k0 v0] m IH]; simpl; [reflexivity |].
    destruct (Nat.eqb k k0) eqn:E; simpl.
    + apply Nat.eqb_eq in E. subst.
      destruct (Nat.eqb k' k0) eqn:E'; [apply Nat.eqb_eq in E'; congruence |]. exact IH.
    + destruct (Nat.eqb k' k0); [reflexivity | exact IH].
  - induction m as [| [k0 v0] m IH]; simpl.
    + destruct (Nat.eqb k' k) eqn:E; [apply Nat.eqb_eq in E; congruence | reflexivity].
    + destruct (Nat.ltb k k0); simpl.
      * destruct (Nat.eqb k' k) eqn:E; [apply Nat.eqb_eq in E; congruence | reflexivity].
      * destruct (Nat.eqb k' k0); [reflexivity | exact IH].
Qed.

Lemma obj_get_delete {A} k (m : obj A) k' :
  obj_get (obj_delete k m) k' = if Nat.eqb k k' then None else obj_get m k'.
Proof.
  unfold obj_delete. induction m as [| [k0 v0] m IH]; simpl.
  - destruct (Nat.eqb k k'); reflexivity.
  - destruct (Nat.eqb k k0) eqn:E; simpl.
    + rewrite IH. apply Nat.eqb_eq in E. subst.
      destruct (Nat.eqb k0 k') eqn:E'; [reflexivity |].
      rewrite Nat.eqb_sym, E'. reflexivity.
    + destruct (Nat.eqb k' k0) eqn:E'; [| exact IH].
      apply Nat.eqb_eq in E'. subst. rewrite E. reflexivity.
Qed.

Ltac obj_simpl :=
  repeat first [ rewrite obj_get_set_same | rewrite obj_get_set_other by lia ].

Ltac ecs_unfold :=
  unfold api_addAgent, api_addEnemy, addEntity, addWeaponToEntity, addWeaponIf, hasEmptySlot,
    map_components, set_components, set_console, set_nodeId, set_entities,
    set_position, set_health, set_weaponSlots, set_weapon, set_enemyType,
    set_targetPartType, addWeapon, newWeaponSlots.
Ltac ecs_run := repeat (cbn -[obj_get obj_set]; obj_simpl).

Definition addWeaponToEntity_result (entityId : nat) (wt : string) (p : PositionComponent)
    (ws : WeaponSlotsComponent) (w : ECS) : ECS :=
  let c := components w in
  let r := addWeapon ws (nodeId w) (console w) in
  {| entities := entities w;
     components :=
       {| position := obj_set (nodeId w) {| x := (x p + 10)%R; y := (y p + 10)%R |} (position c);
          health := health c;
          weaponSlots := obj_set entityId (fst r) (weaponSlots c);
          weapon := obj_set (nodeId w) {| weaponType := wt |} (weapon c);
          enemyType_c := enemyType_c c; targetPartType := targetPartType c;
          targeting := targeting c |};
     nodeId := S (nodeId w);
     enemyTargetingEnabled := enemyTargetingEnabled w;
     agentTargetingEnabled := agentTargetingEnabled w;
     console := snd r |}.

Lemma addWeaponToEntity_eq entityId wt w p ws :
  obj_get (position (components w)) entityId = Some p ->
  obj_get (weaponSlots (components w)) entityId = Some ws ->
  addWeaponToEntity entityId wt w = Some (addWeaponToEntity_result entityId wt p ws w).
Proof.
  intros Hp Hws. unfold addWeaponToEntity.
  cbn [components map_components set_components set_nodeId set_weapon set_position position weaponSlots].
  rewrite Hp. cbn [components map_components set_components set_nodeId set_weapon set_position position weaponSlots].
  rewrite Hws. cbn [console map_components set_components set_nodeId set_weapon set_position].
  destruct (addWeapon ws (nodeId w) (console w)) as [ws' log] eqn:E.
  unfold addWeaponToEntity_result. rewrite E. reflexivity.
Qed.

Ltac proj_simpl :=
  cbn [components entities nodeId console enemyTargetingEnabled agentTargetingEnabled
       map_components set_components set_nodeId set_console set_entities set_flags
       set_position set_health set_weaponSlots set_weapon set_enemyType set_targetPartType
       set_targeting position health weaponSlots weapon enemyType_c targetPartType targeting
       addWeaponToEntity_result fst snd] in *.

Lemma api_addAgent_shape px py wt w :
  let n := nodeId w in
  exists w', api_addAgent px py wt w = Some w' /\
    entities w' = entities w ++ [{| entity_id := n; entity_type := EntityType_AGENT;
                                    entity_components := {| ec_targetPartType := None |} |}] /\
    nodeId w' = S (S (S n)) /\
    obj_get (position (components w')) n = Some {| x := px; y := py |} /\
    obj_get (health (components w')) n = Some {| value := 100%Z |} /\
    obj_get (weaponSlots (components w')) n
      = Some {| weaponIds := [Some (S n); Some (S (S n)); None; None; None; None; None] |} /\
    obj_get (weapon (components w')) (S n) = Some {| weaponType := "rifle" |} /\
    obj_get (weapon (components w')) (S (S n)) = Some {| weaponType := wt |} /\
    obj_get (position (components w')) (S n) = Some {| x := (px + 10)%R; y := (py + 10)%R |} /\
    obj_get (position (components w')) (S (S n)) = Some {| x := (px + 10)%R; y := (py + 10)%R |} /\
    console w' = console w.
Proof.
  intro n. unfold api_addAgent. cbn [addEntity].
  erewrite addWeaponToEntity_eq; [| proj_simpl; apply obj_get_set_same | proj_simpl; apply obj_get_set_same].
  erewrite addWeaponToEntity_eq; [| proj_simpl; obj_simpl; reflexivity | proj_simpl; obj_simpl; reflexivity].
  eexists. split; [reflexivity |].
  proj_simpl. obj_simpl. cbn [addWeapon newWeaponSlots repeat weaponIds fillFirstEmpty fst snd x y].
  repeat split; reflexivity.
Qed.

Ltac spawn_step :=
  unfold addWeaponIf, hasEmptySlot; proj_simpl; obj_simpl;
  cbn [existsb weaponIds addWeapon fillFirstEmpty newWeaponSlots repeat andb negb
       String.eqb Ascii.eqb Bool.eqb orb fst snd table_get EntityStats EnemyPartsConfig];
  cbv beta iota zeta.
Ltac spawn_add :=
  erewrite addWeaponToEntity_eq;
  [| proj_simpl; obj_simpl; reflexivity | proj_simpl; obj_simpl; reflexivity].

Lemma addParts_spec enemyId parts pp i w :
  let w' := addParts enemyId parts pp i w in
  let c := components w in
  let c' := components w' in
  entities w' = entities w /\ nodeId w' = nodeId w + List.length parts /\
  enemyTargetingEnabled w' = enemyTargetingEnabled w /\
  agentTargetingEnabled w' = agentTargetingEnabled w /\ console w' = console w /\
  weaponSlots c' = weaponSlots c /\ weapon c' = weapon c /\
  enemyType_c c' = enemyType_c c /\ targeting c' = targeting c /\
  (forall k, k < nodeId w ->
     obj_get (position c') k = obj_get (position c) k /\
     obj_get (health c') k = obj_get (health c) k /\
     obj_get (targetPartType c') k = obj_get (targetPartType c) k) /\
  (forall j pt, nth_error parts j = Some pt ->
     obj_get (targetPartType c') (nodeId w + j)
       = Some {| partType := pt; parentEntityId := enemyId |} /\
     obj_get (health c') (nodeId w + j) = Some {| value := 10%Z |} /\
     obj_get (position c') (nodeId w + j)
       = Some {| x := fst (pp (i + j)); y := snd (pp (i + j)) |}).
Proof.
  revert i w. induction parts as [| pt parts IH]; intros i w; cbn [addParts].
  - do 9 (split; [try reflexivity; simpl; lia |]). split.
    + intros k Hk. repeat split; reflexivity.
    + intros [| j] pt H; discriminate.
  - set (w1 := addTargetPartToEntity enemyId pt (fst (pp i)) (snd (pp i)) w).
    destruct (IH (S i) w1) as (He & Hn & Hen & Hag & Hco & Hws & Hwp & Het & Htg & Hold & Hnew).
    unfold w1, addTargetPartToEntity in *. proj_simpl.
    split; [exact He |]. split; [rewrite Hn; simpl; lia |].
    do 7 (split; [assumption |]). split.
    + intros k Hk.
      destruct (Hold k ltac:(lia)) as (H1 & H2 & H3). rewrite H1, H2, H3.
      obj_simpl. repeat split; reflexivity.
    + intros [| j] pt' H; cbn [nth_error] in H.
      * inversion H; subst. rewrite !Nat.add_0_r.
        destruct (Hold (nodeId w) ltac:(lia)) as (H1 & H2 & H3). rewrite H1, H2, H3.
        obj_simpl. repeat split; reflexivity.
      * replace (nodeId w + S j) with (S (nodeId w) + j) by lia.
        replace (i + S j) with (S i + j) by lia.
        exact (Hnew j pt' H).
Qed.

Lemma api_addEnemy_shape et px py pp w :
  In et EnemyTypes ->
  let n := nodeId w in
  exists w' hp parts,
    api_addEnemy et px py pp w = Some w' /\
    table_get EntityStats et = Some hp /\
    table_get EnemyPartsConfig et = Some parts /\
    entities w' = entities w ++ [{| entity_id := n; entity_type := EntityType_ENEMY;
                                    entity_components := {| ec_targetPartType := None |} |}] /\
    nodeId w' = S (S (S n)) + List.length parts /\
    obj_get (position (components w')) n = Some {| x := px; y := py |} /\
    obj_get (health (components w')) n = Some {| value := hp |} /\
    obj_get (enemyType_c (components w')) n = Some {| enemyType := et |} /\
    obj_get (weaponSlots (components w')) n
      = Some {| weaponIds := [Some (S n); Some (S (S n))] |} /\
    obj_get (weapon (components w')) (S n) = Some {| weaponType := "laser" |} /\
    obj_get (weapon (components w')) (S (S n))
      = Some {| weaponType := if String.eqb et "devastator" then "rocket"
                              else if String.eqb et "tank" then "cannon" else "melee" |} /\
    obj_get (position (components w')) (S n) = Some {| x := (px + 10)%R; y := (py + 10)%R |} /\
    obj_get (position (components w')) (S (S n)) = Some {| x := (px + 10)%R; y := (py + 10)%R |} /\
    (forall j pt, nth_error parts j = Some pt ->
       obj_get (targetPartType (components w')) (S (S (S n)) + j)
         = Some {| partType := pt; parentEntityId := n |} /\
       obj_get (health (components w')) (S (S (S n)) + j) = Some {| value := 10%Z |}) /\
    console w' = console w.
Proof.
  intros Het n. unfold n.
  destruct Het as [<- | [<- | [<- | []]]].
  all: unfold api_addEnemy; cbn [addEntity].
  all: spawn_step.
  all: spawn_add.
  all: do 3 (spawn_step; try spawn_add).
  all: spawn_step.
  all: match goal with
       | |- context [addParts ?a ?b ?c ?d ?e] =>
           destruct (addParts_spec a b c d e)
             as (He & Hn & _ & _ & Hco & Hws & Hwp & Hety & _ & Hold & Hnew)
       end.
  all: do 3 eexists.
  all: split; [reflexivity |].
  all: split; [reflexivity |].
  all: split; [reflexivity |].
  all: rewrite He, Hn, Hco, Hws, Hwp, Hety; proj_simpl.
  all: split; [reflexivity |].
  all: split; [reflexivity |].
  all: destruct (Hold (nodeId w) ltac:(lia)) as (Hp0 & Hh0 & _).
  all: destruct (Hold (S (nodeId w)) ltac:(lia)) as (Hp1 & _ & _).
  all: destruct (Hold (S (S (nodeId w))) ltac:(lia)) as (Hp2 & _ & _).
  all: rewrite Hp0, Hh0, Hp1, Hp2; obj_simpl.
  all: do 8 (split; [reflexivity |]).
  all: split; [| reflexivity].
  all: intros j pt Hj; destruct (Hnew j pt Hj) as (H1 & H2 & _).
  all: rewrite H1, H2; split; reflexivity.
Qed.

Lemma fillFirstEmpty_Some ids weaponId ids' :
  fillFirstEmpty ids weaponId = Some ids' ->
  exists pre post, ids = pre ++ None :: post /\ ~ In None pre /\
                   ids' = pre ++ Some weaponId :: post.
Proof.
  revert ids'. induction ids as [| [i |] ids IH]; intros ids'; simpl; [discriminate | |].
  - destruct (fillFirstEmpty ids weaponId) as [r |] eqn:E; [| discriminate].
    intro H. inversion H; subst. destruct (IH r eq_refl) as (pre & post & H1 & H2 & H3).
    exists (Some i :: pre), post. subst. simpl. repeat split; auto.
    intros [Hc | Hc]; [discriminate | auto].
  - intro H. inversion H; subst. exists [], ids. simpl. auto.
Qed.

Lemma fillFirstEmpty_None ids weaponId :
  fillFirstEmpty ids weaponId = None -> ~ In None ids.
Proof.
  induction ids as [| [i |] ids IH]; simpl; [tauto | | discriminate].
  destruct (fillFirstEmpty ids weaponId); [discriminate |].
  intros _ [H | H]; [discriminate | exact (IH eq_refl H)].
Qed.

(** [addWeapon] keeps the number of slots; it writes the id into the first
    [null] slot if there is one, and otherwise only warns. *)
Lemma addWeapon_spec ws weaponId log :
  let (ws', log') := addWeapon ws weaponId log in
  List.length (weaponIds ws') = List.length (weaponIds ws) /\
  ((exists pre post, weaponIds ws = pre ++ None :: post /\ ~ In None pre /\
                     weaponIds ws' = pre ++ Some weaponId :: post /\ log' = log) \/
   (~ In None (weaponIds ws) /\ ws' = ws /\
    log' = log ++ [Warn "Entity has no available weapon slots."])).
Proof.
  unfold addWeapon. destruct (fillFirstEmpty (weaponIds ws) weaponId) as [ids |] eqn:E.
  - destruct (fillFirstEmpty_Some _ _ _ E) as (pre & post & H1 & H2 & H3). simpl.
    rewrite H1, H3, !length_app. simpl. split; [reflexivity |].
    left. exists pre, post. auto.
  - split; [reflexivity |]. right. split; [exact (fillFirstEmpty_None _ _ E) | auto].
Qed.

Lemma indexOf_absent es id : ~ In id (ids es) -> indexOf es id = (-1)%Z.
Proof.
  induction es as [| e es IH]; simpl; [reflexivity |].
  intro H. destruct (Nat.eqb (entity_id e) id) eqn:E.
  - apply Nat.eqb_eq in E. exfalso. apply H. left. exact E.
  - rewrite IH by tauto. reflexivity.
Qed.

(** [killEntity] of an entity missing from the list: [indexOf] gives [-1] and
    [splice(-1, 1)] removes the last entity of the list instead. *)
Lemma killEntity_absent e w :
  ~ In (entity_id e) (ids (entities w)) ->
  entities (killEntity e w) = removelast (entities w).
Proof.
  intro H. unfold killEntity. cbn [entities set_components set_entities].
  rewrite indexOf_absent by exact H. unfold splice1. cbv zeta.
  destruct (entities w) as [| e0 es] eqn:Ees; [reflexivity |].
  rewrite removelast_firstn_len.
  replace ((-1 <? 0)%Z) with true by reflexivity.
  set (len := List.length (e0 :: es)).
  assert (Hl : 1 <= len) by (unfold len; simpl; lia).
  replace (Z.to_nat (Z.max 0 (Z.of_nat len + -1))) with (pred len) by lia.
  rewrite skipn_all2 by lia. rewrite app_nil_r. reflexivity.
Qed.

Lemma filter_keep_absent id (l : list Entity) :
  ~ In id (ids l) -> filter (fun e' => negb (Nat.eqb (entity_id e') id)) l = l.
Proof.
  induction l as [| e l IH]; simpl; [reflexivity |].
  intro H. destruct (Nat.eqb (entity_id e) id) eqn:E.
  - apply Nat.eqb_eq in E. exfalso. apply H. left. exact E.
  - simpl. rewrite IH by tauto. reflexivity.
Qed.

(** [killEntity] of a listed entity, ids distinct: exactly that entity leaves
    the list, and exactly the entries under its id leave the component
    objects. *)
Lemma killEntity_listed e w :
  NoDup (ids (entities w)) -> In e (entities w) ->
  let w' := killEntity e w in
  let id := entity_id e in
  entities w' = filter (fun e' => negb (Nat.eqb (entity_id e') id)) (entities w) /\
  nodeId w' = nodeId w /\
  forall k,
    obj_get (position (components w')) k = (if Nat.eqb id k then None else obj_get (position (components w)) k) /\
    obj_get (health (components w')) k = (if Nat.eqb id k then None else obj_get (health (components w)) k) /\
    obj_get (weaponSlots (components w')) k = (if Nat.eqb id k then None else obj_get (weaponSlots (components w)) k) /\
    obj_get (weapon (components w')) k = (if Nat.eqb id k then None else obj_get (weapon (components w)) k) /\
    obj_get (enemyType_c (components w')) k = (if Nat.eqb id k then None else obj_get (enemyType_c (components w)) k) /\
    obj_get (targetPartType (components w')) k = (if Nat.eqb id k then None else obj_get (targetPartType (components w)) k) /\
    obj_get (targeting (components w')) k = (if Nat.eqb id k then None else obj_get (targeting (components w)) k).
Proof.
  intros Hnd Hin w' id. split; [| split; [reflexivity |]].
  - unfold w', killEntity. cbn [entities set_components set_entities].
    assert (Hid : In (entity_id e) (ids (entities w))) by (apply in_map; exact Hin).
    destruct (indexOf_spec _ _ Hid) as (i & e0 & Hi & Hn & He). rewrite Hi.
    rewrite (splice1_at _ _ _ Hn).
    pose proof (nth_error_split_at _ _ _ Hn) as Hsplit.
    rewrite Hsplit in Hnd. unfold ids in Hnd. rewrite map_app in Hnd. cbn [map] in Hnd.
    apply NoDup_remove_2 in Hnd. rewrite <- map_app in Hnd. rewrite He in Hnd.
    rewrite Hsplit at 3. rewrite filter_app. cbn [filter].
    unfold id. rewrite <- He, Nat.eqb_refl. cbn [negb]. rewrite He.
    rewrite <- filter_app. symmetry. apply filter_keep_absent. exact Hnd.
  - intro k. unfold w', killEntity, deleteAllComponents. cbn [components set_components set_entities
      position health weaponSlots weapon enemyType_c targetPartType targeting].
    rewrite !obj_get_delete. repeat split; reflexivity.
Qed.

Lemma clamp01_mono q1 q2 : (q1 <= q2)%R -> (Rmax 0 (Rmin 1 q1) <= Rmax 0 (Rmin 1 q2))%R.
Proof.
  intro H. apply Rle_max_compat_l, Rle_min_compat_l, H.
Qed.

(** Hit probability never increases with the distance, and is [0] from the
    maximum range on (outside melee range). *)
Lemma calculateHitProbability_antitone d1 d2 maxRange accuracy :
  (0 <= accuracy <= 1)%R -> (0 < maxRange)%R ->
  ((d1 <= d2)%R ->
   (calculateHitProbability d2 maxRange accuracy
      <= calculateHitProbability d1 maxRange accuracy)%R) /\
  ((1 < d2)%R -> (maxRange <= d2)%R -> calculateHitProbability d2 maxRange accuracy = 0%R).
Proof.
  intros Ha Hm. unfold calculateHitProbability, Rleb. rewrite meleeMaxRange_eq. cbv zeta.
  split.
  - intro Hd.
    destruct (Rle_dec d2 1) as [H2 | H2]; destruct (Rle_dec d1 1) as [H1 | H1]; try lra.
    + pose proof (clamp01_bounds (d2 / maxRange)). nra.
    + assert (Hq : (d1 / maxRange <= d2 / maxRange)%R).
      { unfold Rdiv. apply Rmult_le_compat_r; [left; apply Rinv_0_lt_compat; exact Hm | exact Hd]. }
      pose proof (clamp01_mono _ _ Hq). nra.
  - intros H1 H2. destruct (Rle_dec d2 1); [lra |].
    assert (Hq : (1 <= d2 / maxRange)%R).
    { apply (Rmult_le_reg_r maxRange); [exact Hm |].
      unfold Rdiv. rewrite Rmult_assoc, Rinv_l by lra. lra. }
    unfold Rmax, Rmin. destruct (Rle_dec 1 (d2 / maxRange)); [| lra].
    destruct (Rle_dec 0 1); lra.
Qed.

Lemma WeaponStats_damage_pos t st : WeaponStats t = Some st -> (0 < damage st)%Z.
Proof.
  unfold WeaponStats, WeaponStats_table. cbn [table_get].
  repeat match goal with |- context [String.eqb ?a ?b] => destruct (String.eqb a b) end;
    intro H; inversion H; subst; cbn [damage]; lia.
Qed.

Lemma damageLink_health_cases rnd k w n w' n' :
  damageLink rnd k (w, n) = Some (w', n') ->
  w' = w \/
  exists tgt h st,
    In tgt (entities w) /\ obj_get (health (components w)) (entity_id tgt) = Some h /\
    (0 < damage st)%Z /\
    let w1 := set_components (set_health (obj_set (entity_id tgt)
                                {| value := value h - damage st |}
                                (health (components w))) (components w)) w in
    (w' = w1 \/ w' = killEntity tgt w1).
Proof.
  unfold damageLink.
  destruct (obj_get (targeting (components w)) k) as [link |];
    [| intro H; inversion H; auto].
  destruct (negb (enabled link)); [intro H; inversion H; auto |].
  destruct (obj_get (weapon (components w)) k) as [wpn |];
    [| intro H; inversion H; auto].
  destruct (find (fun e => Nat.eqb (entity_id e) (target link)) (entities w)) as [tgt |] eqn:F;
    [| intro H; inversion H; auto].
  apply find_some in F. destruct F as [Hin _].
  destruct (WeaponStats (weaponType wpn)) as [st |] eqn:Est; [| discriminate].
  destruct (obj_get (position (components w)) (source link)) as [sp |]; [| discriminate].
  destruct (obj_get (position (components w)) (entity_id tgt)) as [tp |]; [| discriminate].
  destruct (WeaponRangeConfig (weaponType wpn)) as [[mn mx] |]; [| discriminate].
  destruct (Rltb _ _); [| intro H; inversion H; auto].
  destruct (obj_get (health (components w)) (entity_id tgt)) as [h |] eqn:Eh; [| discriminate].
  intro H. right. exists tgt, h, st. split; [exact Hin |]. split; [exact Eh |].
  split; [exact (WeaponStats_damage_pos _ _ Est) |].
  cbv zeta in H. destruct (value h - damage st <=? 0)%Z; inversion H; subst; auto.
Qed.

Lemma damageLoop_health rnd keys w n w' n' :
  damageLoop rnd keys (w, n) = Some (w', n') ->
  forall id h', obj_get (health (components w')) id = Some h' ->
  exists h, obj_get (health (components w)) id = Some h /\ (value h' <= value h)%Z.
Proof.
  revert w n. induction keys as [| k keys IH]; intros w n; cbn [damageLoop].
  - intro H. inversion H; subst. intros id h' Hh. exists h'. split; [exact Hh | lia].
  - destruct (damageLink rnd k (w, n)) as [[w1 n1] |] eqn:E; [| discriminate].
    intros Hl id h' Hh. destruct (IH _ _ Hl id h' Hh) as (h1 & Hh1 & Hle1).
    destruct (damageLink_health_cases _ _ _ _ _ _ E) as [-> | (tgt & h & st & _ & Ht & Hd & Hw1)].
    + exists h1. auto.
    + assert (Hset : forall h2, obj_get (health (components
          (set_components (set_health (obj_set (entity_id tgt)
             {| value := value h - damage st |} (health (components w))) (components w)) w))) id
          = Some h2 -> exists h0, obj_get (health (components w)) id = Some h0 /\
                                  (value h2 <= value h0)%Z).
      { intros h2. cbn [components set_components set_health health].
        destruct (Nat.eq_dec (entity_id tgt) id) as [<- | Hne].
        - rewrite obj_get_set_same. intro H2. inversion H2; subst. exists h.
          split; [exact Ht | cbn [value]; lia].
        - rewrite obj_get_set_other by exact Hne. intro H2. exists h2. split; [exact H2 | lia]. }
      destruct Hw1 as [-> | ->].
      * destruct (Hset h1 Hh1) as (h0 & H0 & Hle0). exists h0. split; [exact H0 | lia].
      * unfold killEntity, deleteAllComponents in Hh1.
        cbn [components set_components set_entities health] in Hh1.
        rewrite obj_get_delete in Hh1. destruct (Nat.eqb _ id); [discriminate |].
        destruct (Hset h1 Hh1) as (h0 & H0 & Hle0). exists h0. split; [exact H0 | lia].
Qed.

(** The damage pass never raises a hit-point value and never creates a
    health entry. *)
Lemma DamageSystem_update_health_nonincreasing rnd w w' :
  DamageSystem_update rnd w = Some w' ->
  forall id h', obj_get (health (components w')) id = Some h' ->
  exists h, obj_get (health (components w)) id = Some h /\ (value h' <= value h)%Z.
Proof.
  unfold DamageSystem_update.
  destruct (damageLoop rnd _ (w, 0)) as [[w1 n1] |] eqn:E; [| discriminate].
  intro H. inversion H; subst. exact (damageLoop_health _ _ _ _ _ _ E).
Qed.

Lemma assignOwners_off w es c :
  enemyTargetingEnabled w = false -> agentTargetingEnabled w = false ->
  assignOwners w es c = Some c.
Proof.
  intros Hen Hag. induction es as [| e es IH]; simpl; [reflexivity |].
  rewrite Hen, Hag, !andb_false_r. exact IH.
Qed.

(** With both targeting flags off, a step only empties [targeting]. *)
Lemma ECS_update_targeting_off rnd w :
  enemyTargetingEnabled w = false -> agentTargetingEnabled w = false ->
  ECS_update rnd w = Some (withTargeting [] w).
Proof.
  intros Hen Hag. unfold ECS_update, WeaponAssignmentSystem_update.
  rewrite assignOwners_off by assumption. reflexivity.
Qed.

(** ** Spawning leaves the components of older ids alone *)

Lemma api_addAgent_frame px py wt w w' k :
  api_addAgent px py wt w = Some w' -> k < nodeId w ->
  obj_get (position (components w')) k = obj_get (position (components w)) k /\
  obj_get (weaponSlots (components w')) k = obj_get (weaponSlots (components w)) k /\
  obj_get (weapon (components w')) k = obj_get (weapon (components w)) k.
Proof.
  intros H Hk. revert H. unfold api_addAgent. cbn [addEntity].
  erewrite addWeaponToEntity_eq; [| proj_simpl; apply obj_get_set_same | proj_simpl; apply obj_get_set_same].
  erewrite addWeaponToEntity_eq; [| proj_simpl; obj_simpl; reflexivity | proj_simpl; obj_simpl; reflexivity].
  intro H. inversion H; subst; clear H.
  proj_simpl. obj_simpl. split; [reflexivity | split; reflexivity].
Qed.

Lemma api_addEnemy_frame et px py pp w w' k :
  In et EnemyTypes -> api_addEnemy et px py pp w = Some w' -> k < nodeId w ->
  obj_get (position (components w')) k = obj_get (position (components w)) k /\
  obj_get (weaponSlots (components w')) k = obj_get (weaponSlots (components w)) k /\
  obj_get (weapon (components w')) k = obj_get (weapon (components w)) k.
Proof.
  intros Het H Hk. revert H.
  destruct Het as [<- | [<- | [<- | []]]].
  all: unfold api_addEnemy; cbn [addEntity].
  all: spawn_step.
  all: spawn_add.
  all: do 3 (spawn_step; try spawn_add).
  all: spawn_step.
  all: match goal with
       | |- context [addParts ?a ?b ?c ?d ?e] =>
           destruct (addParts_spec a b c d e)
             as (_ & _ & _ & _ & _ & Hws & Hwp & _ & _ & Hold & _)
       end.
  all: intro H; apply (f_equal (fun o => match o with Some v => v | None => w end)) in H;
       cbv beta iota in H; subst w'.
  all: rewrite Hws, Hwp.
  all: destruct (Hold k ltac:(proj_simpl; lia)) as (Hp0 & _ & _).
  all: rewrite Hp0; proj_simpl; obj_simpl.
  all: split; [reflexivity | split; reflexivity].
Qed.

(** ** Which links the assignment pass can record *)

Lemma obj_get_In {A} (m : obj A) k v : obj_get m k = Some v -> In (k, v) m.
Proof.
  induction m as [| [k' v'] m IH]; simpl; [discriminate |].
  destruct (Nat.eqb k k') eqn:E.
  - apply Nat.eqb_eq in E. subst. intro H. inversion H. auto.
  - auto.
Qed.

Lemma WeaponRangeConfig_melee : WeaponRangeConfig "melee" = Some (1%R, 1%R).
Proof. reflexivity. Qed.

Lemma WeaponStats_melee : WeaponStats "melee" = Some {| damage := 20; accuracy := 1 |}.
Proof. reflexivity. Qed.

(** Only the [melee] preferences keep a type after the filter by the owner's
    valid opposing types. *)
Lemma filteredTargetTypes_melee t prefs owner :
  WeaponTargetConfig t = Some prefs -> filteredTargetTypes owner prefs <> [] -> t = "melee".
Proof.
  unfold WeaponTargetConfig, WeaponTargetConfig_table. cbn [table_get].
  unfold filteredTargetTypes, validTargetTypes.
  destruct (String.eqb (entity_type owner) EntityType_AGENT);
    [| destruct (String.eqb (entity_type owner) EntityType_ENEMY)].
  all: repeat match goal with
         |- context [String.eqb ?a ?s] =>
           is_var a; let E := fresh "E" in destruct (String.eqb a s) eqn:E
       end.
  all: intro H; inversion H; subst; intro Hne.
  all: first [ apply String.eqb_eq; assumption | exfalso; apply Hne; reflexivity ].
Qed.

Lemma tryCandidate_found c wid owner wpn cand c' :
  tryCandidate c wid owner wpn cand = Some (Some c') ->
  exists tgt, cand = Some tgt /\ inRangeOf c owner wpn tgt = Some true /\
              c' = recordTargeting c wid wpn tgt.
Proof.
  unfold tryCandidate. destruct cand as [t |]; [| discriminate].
  destruct (inRangeOf c owner wpn t) as [[|] |] eqn:E; intro H; inversion H; subst; eauto.
Qed.

Lemma tryPrimary_found ents c wid owner wpn types c' :
  tryPrimary ents c wid owner wpn types = Some (Some c') ->
  exists tgt, In tgt ents /\ inRangeOf c owner wpn tgt = Some true /\
              c' = recordTargeting c wid wpn tgt.
Proof.
  induction types as [| t types IH]; cbn [tryPrimary]; [discriminate |].
  destruct (tryCandidate _ _ _ _ _) as [[c1 |] |] eqn:E; try discriminate; auto.
  intro H. inversion H; subst.
  destruct (tryCandidate_found _ _ _ _ _ _ E) as (tgt & Hf & Hr & ->).
  unfold firstCandidate in Hf. apply find_some in Hf.
  exists tgt. split; [apply Hf | auto].
Qed.

Lemma tryPrimary_ok ents c wid owner wpn types r p :
  WeaponRangeConfig (weaponType wpn) = Some r ->
  obj_get (position c) (entity_id owner) = Some p ->
  (forall e, In e ents -> exists q, obj_get (position c) (entity_id e) = Some q) ->
  tryPrimary ents c wid owner wpn types <> None.
Proof.
  intros Hr Hp Hents. induction types as [| t types IH]; cbn [tryPrimary]; [discriminate |].
  unfold tryCandidate at 1.
  destruct (firstCandidate ents (targeting c) wid t) as [cand |] eqn:F; [| exact IH].
  unfold firstCandidate in F. apply find_some in F. destruct F as [Hin _].
  destruct (Hents _ Hin) as [q Hq].
  unfold inRangeOf. rewrite Hp, Hq. destruct r as [mn mx]. rewrite Hr.
  destruct (Rleb _ _); [discriminate | exact IH].
Qed.

(** One call of [assignWeaponToTarget] leaves the components as they are,
    or records a link of a [melee] weapon to a listed entity in its range. *)
Lemma assignWeaponToTarget_melee ents wid owner c c' :
  assignWeaponToTarget ents wid owner c = Some c' ->
  c' = c \/
  exists wpn tgt, obj_get (weapon c) wid = Some wpn /\ weaponType wpn = "melee" /\
    In tgt ents /\ inRangeOf c owner wpn tgt = Some true /\
    c' = recordTargeting c wid wpn tgt.
Proof.
  unfold assignWeaponToTarget.
  destruct (obj_get (weapon c) wid) as [wpn |] eqn:Ew; [| discriminate].
  destruct (WeaponTargetConfig (weaponType wpn)) as [prefs |] eqn:Ec;
    [| intro H; inversion H; auto].
  destruct (tryPrimary _ _ _ _ _ _) as [[c1 |] |] eqn:E; try discriminate.
  - intro H. inversion H; subst. right.
    destruct (tryPrimary_found _ _ _ _ _ _ _ E) as (tgt & Hin & Hr & ->).
    exists wpn, tgt. split; [reflexivity |]. split; [| auto].
    apply (filteredTargetTypes_melee _ _ owner Ec).
    intro Hnil. rewrite Hnil in E. discriminate.
  - destruct (specificTargets prefs) as [st |]; [rewrite trySpecific_nothing |];
      intro H; inversion H; auto.
Qed.

Lemma assignWeaponToTarget_ok ents wid owner c p :
  (exists wpn, obj_get (weapon c) wid = Some wpn) ->
  obj_get (position c) (entity_id owner) = Some p ->
  (forall e, In e ents -> exists q, obj_get (position c) (entity_id e) = Some q) ->
  assignWeaponToTarget ents wid owner c <> None.
Proof.
  intros [wpn Ew] Hp Hents. unfold assignWeaponToTarget. rewrite Ew.
  destruct (WeaponTargetConfig (weaponType wpn)) as [prefs |] eqn:Ec; [| discriminate].
  destruct (filteredTargetTypes owner prefs) as [| t0 ts] eqn:Ef.
  - cbn [tryPrimary].
    destruct (specificTargets prefs) as [st |]; [rewrite trySpecific_nothing |]; discriminate.
  - assert (Hm : weaponType wpn = "melee").
    { apply (filteredTargetTypes_melee _ _ owner Ec). rewrite Ef. discriminate. }
    rewrite <- Ef.
    destruct (tryPrimary _ _ _ _ _ _) as [[c1 |] |] eqn:E.
    + discriminate.
    + rewrite Hm in Ec. unfold WeaponTargetConfig in Ec. cbn in Ec.
      inversion Ec; subst. cbn. discriminate.
    + exfalso. eapply tryPrimary_ok; [| exact Hp | exact Hents | exact E].
      rewrite Hm. exact WeaponRangeConfig_melee.
Qed.

Lemma inRangeOf_melee c owner wpn tgt :
  weaponType wpn = "melee" -> inRangeOf c owner wpn tgt = Some true ->
  exists p q, obj_get (position c) (entity_id owner) = Some p /\
    obj_get (position c) (entity_id tgt) = Some q /\ (distance p q <= 1)%R.
Proof.
  intro Hm. unfold inRangeOf. rewrite Hm, WeaponRangeConfig_melee.
  destruct (obj_get (position c) (entity_id owner)) as [p |]; [| discriminate].
  destruct (obj_get (position c) (entity_id tgt)) as [q |]; [| discriminate].
  unfold Rleb. destruct (Rle_dec _ _) as [Hle |]; [| discriminate].
  intros _. exists p, q. auto.
Qed.

(** A link recorded for weapon [k] of [owner]: keyed by the weapon, enabled,
    of a [melee] weapon, to a listed entity at distance at most 1 from the
    owner. *)
Definition meleeLinkOf (ents : list Entity) (c : Components) (owner : Entity) (k : nat)
    (l : TargetingComponent) : Prop :=
  source l = k /\ enabled l = true /\
  exists wpn tgt p q, obj_get (weapon c) k = Some wpn /\ weaponType wpn = "melee" /\
    In tgt ents /\ target l = entity_id tgt /\
    obj_get (position c) (entity_id owner) = Some p /\
    obj_get (position c) (entity_id tgt) = Some q /\ (distance p q <= 1)%R.

Lemma meleeLinkOf_frame ents c c' owner k l :
  weapon c' = weapon c -> position c' = position c ->
  meleeLinkOf ents c' owner k l -> meleeLinkOf ents c owner k l.
Proof. intros Hw Hp. unfold meleeLinkOf. rewrite Hw, Hp. exact (fun H => H). Qed.

Lemma assignSlots_melee ents owner slots c c' :
  assignSlots ents owner slots c = Some c' ->
  c' = set_targeting (targeting c') c /\
  (forall k l, In (k, l) (targeting c') ->
     In (k, l) (targeting c) \/ (In (Some k) slots /\ meleeLinkOf ents c owner k l)).
Proof.
  revert c. induction slots as [| [wid |] slots IH]; intros c; cbn [assignSlots].
  - intro H. inversion H; subst. split; [symmetry; apply set_targeting_same | auto].
  - destruct (assignWeaponToTarget ents wid owner c) as [c1 |] eqn:E; [| discriminate].
    intro H. destruct (IH c1 H) as (Hf & He).
    pose proof (assignWeaponToTarget_frame _ _ _ _ _ E) as Hf1.
    assert (Hw1 : weapon c1 = weapon c) by (rewrite Hf1; reflexivity).
    assert (Hp1 : position c1 = position c) by (rewrite Hf1; reflexivity).
    split; [eapply frame_trans; eauto |].
    intros k l Hin. destruct (He k l Hin) as [Hin1 | [Hk Hm]].
    + destruct (assignWeaponToTarget_melee _ _ _ _ _ E)
        as [-> | (wpn & tgt & Ew & Hm & Ht & Hr & ->)]; [auto |].
      cbn [recordTargeting targeting set_targeting] in Hin1.
      apply In_obj_set in Hin1. destruct Hin1 as [[-> ->] | Hin1]; [| auto].
      right. split; [left; reflexivity |].
      destruct (inRangeOf_melee _ _ _ _ Hm Hr) as (p & q & Hp & Hq & Hd).
      split; [reflexivity | split; [reflexivity |]].
      exists wpn, tgt, p, q. cbn [target]. auto 8.
    + right. split; [right; exact Hk |]. eapply meleeLinkOf_frame; eauto.
  - intro H. destruct (IH c H) as (Hf & He). split; [exact Hf |].
    intros k l Hin. destruct (He k l Hin) as [? | [? ?]]; [auto | right; split; [right |]; auto].
Qed.

Lemma ownerWeapons_melee ents owner c c1 :
  match obj_get (weaponSlots c) (entity_id owner) with
  | None => None
  | Some ws => assignSlots ents owner (weaponIds ws) c
  end = Some c1 ->
  c1 = set_targeting (targeting c1) c /\
  (forall k l, In (k, l) (targeting c1) ->
     In (k, l) (targeting c) \/
     exists ws, obj_get (weaponSlots c) (entity_id owner) = Some ws /\
                In (Some k) (weaponIds ws) /\ meleeLinkOf ents c owner k l).
Proof.
  destruct (obj_get (weaponSlots c) (entity_id owner)) as [ws |] eqn:E; [| discriminate].
  intro H. destruct (assignSlots_melee _ _ _ _ _ H) as (Hf & He).
  split; [exact Hf |]. intros k l Hin.
  destruct (He k l Hin) as [? | [? ?]]; [auto | right; exists ws; auto].
Qed.

Lemma assignOwners_melee w es c c' :
  assignOwners w es c = Some c' ->
  c' = set_targeting (targeting c') c /\
  (forall k l, In (k, l) (targeting c') ->
     In (k, l) (targeting c) \/
     exists owner ws, In owner es /\ obj_get (weaponSlots c) (entity_id owner) = Some ws /\
       In (Some k) (weaponIds ws) /\ meleeLinkOf (entities w) c owner k l).
Proof.
  revert c. induction es as [| e es IH]; intros c; cbn [assignOwners].
  - intro H. inversion H; subst. split; [symmetry; apply set_targeting_same | auto].
  - assert (Hstep : forall c1,
      match obj_get (weaponSlots c) (entity_id e) with
      | None => None
      | Some ws => assignSlots (entities w) e (weaponIds ws) c
      end = Some c1 ->
      assignOwners w es c1 = Some c' ->
      c' = set_targeting (targeting c') c /\
      (forall k l, In (k, l) (targeting c') ->
         In (k, l) (targeting c) \/
         exists owner ws, In owner (e :: es) /\
           obj_get (weaponSlots c) (entity_id owner) = Some ws /\
           In (Some k) (weaponIds ws) /\ meleeLinkOf (entities w) c owner k l)).
    { intros c1 H1 H2.
      destruct (ownerWeapons_melee _ _ _ _ H1) as (Hf1 & He1).
      destruct (IH c1 H2) as (Hf2 & He2).
      assert (Hw1 : weapon c1 = weapon c) by (rewrite Hf1; reflexivity).
      assert (Hp1 : position c1 = position c) by (rewrite Hf1; reflexivity).
      assert (Hs1 : weaponSlots c1 = weaponSlots c) by (rewrite Hf1; reflexivity).
      split; [eapply frame_trans; eauto |].
      intros k l Hin. destruct (He2 k l Hin) as [Hin1 | (owner & ws & Ho & Hws & Hk & Hm)].
      - destruct (He1 k l Hin1) as [? | (ws & Hws & Hk & Hm)]; [auto |].
        right. exists e, ws. split; [left; reflexivity | auto].
      - right. exists owner, ws. rewrite Hs1 in Hws.
        split; [right; exact Ho |]. split; [exact Hws |]. split; [exact Hk |].
        eapply meleeLinkOf_frame; eauto. }
    assert (Hrest : assignOwners w es c = Some c' ->
      c' = set_targeting (targeting c') c /\
      (forall k l, In (k, l) (targeting c') ->
         In (k, l) (targeting c) \/
         exists owner ws, In owner (e :: es) /\
           obj_get (weaponSlots c) (entity_id owner) = Some ws /\
           In (Some k) (weaponIds ws) /\ meleeLinkOf (entities w) c owner k l)).
    { intro H. destruct (IH c H) as (Hf & He). split; [exact Hf |].
      intros k l Hin. destruct (He k l Hin) as [? | (owner & ws & Ho & ?)]; [auto |].
      right. exists owner, ws. split; [right; exact Ho | auto]. }
    unfold assignAgentWeapons, assignEnemyWeapons.
    destruct (String.eqb (entity_type e) EntityType_AGENT && agentTargetingEnabled w).
    + destruct (match obj_get (weaponSlots c) (entity_id e) with
                | None => None | Some ws => assignSlots (entities w) e (weaponIds ws) c end)
        as [c1 |] eqn:E1; [| discriminate].
      intro H2. exact (Hstep c1 eq_refl H2).
    + destruct (String.eqb (entity_type e) EntityType_ENEMY && enemyTargetingEnabled w).
      * destruct (match obj_get (weaponSlots c) (entity_id e) with
                  | None => None | Some ws => assignSlots (entities w) e (weaponIds ws) c end)
          as [c1 |] eqn:E1; [| discriminate].
        intro H2. exact (Hstep c1 eq_refl H2).
      * exact Hrest.
Qed.

(** The assignment pass only records links of [melee] weapons held in the
    slots of a listed owner, each to a listed entity whose position is at
    distance at most 1 from the owner's. *)
Lemma assignment_links_melee w w' :
  WeaponAssignmentSystem_update w = Some w' ->
  forall k l, In (k, l) (targeting (components w')) ->
  exists owner ws, In owner (entities w) /\
    obj_get (weaponSlots (components w)) (entity_id owner) = Some ws /\
    In (Some k) (weaponIds ws) /\ meleeLinkOf (entities w) (components w) owner k l.
Proof.
  unfold WeaponAssignmentSystem_update.
  destruct (assignOwners w (entities w) (set_targeting [] (components w))) as [c |] eqn:E;
    [| discriminate].
  intro H. inversion H; subst; clear H. cbn [components set_components].
  destruct (assignOwners_melee _ _ _ _ E) as (_ & He).
  intros k l Hin. destruct (He k l Hin) as [[] | (owner & ws & Ho & Hws & Hk & Hm)].
  exists owner, ws. auto.
Qed.

(** ** Reachable states: every weapon sits 10 units right of and below its owner *)

(** A listed entity has a position and slots, and each weapon of its slots a
    weapon component and the position of the owner shifted by [(10, 10)];
    all these ids are below the id counter. *)
Definition weaponsPlaced (c : Components) (n : nat) (e : Entity) : Prop :=
  entity_id e < n /\
  exists p ws, obj_get (position c) (entity_id e) = Some p /\
    obj_get (weaponSlots c) (entity_id e) = Some ws /\
    forall k, In (Some k) (weaponIds ws) ->
      k < n /\ (exists wpn, obj_get (weapon c) k = Some wpn) /\
      obj_get (position c) k = Some {| x := (x p + 10)%R; y := (y p + 10)%R |}.

Definition placedWorld (w : ECS) : Prop :=
  forall e, In e (entities w) -> weaponsPlaced (components w) (nodeId w) e.

Lemma weaponsPlaced_frame c c' n n' e :
  n <= n' ->
  (forall k, k < n ->
     obj_get (position c') k = obj_get (position c) k /\
     obj_get (weaponSlots c') k = obj_get (weaponSlots c) k /\
     obj_get (weapon c') k = obj_get (weapon c) k) ->
  weaponsPlaced c n e -> weaponsPlaced c' n' e.
Proof.
  intros Hn Hf (He & p & ws & Hp & Hws & Hk).
  destruct (Hf _ He) as (Hp' & Hws' & _).
  split; [lia |]. exists p, ws. rewrite Hp', Hws'. split; [exact Hp |]. split; [exact Hws |].
  intros k Hin. destruct (Hk k Hin) as (Hlt & [wpn Hw] & Hpk).
  destruct (Hf _ Hlt) as (Hpk' & _ & Hw').
  split; [lia |]. rewrite Hw', Hpk'. split; [exists wpn; exact Hw | exact Hpk].
Qed.

Lemma assignSlots_ok ents owner slots c p :
  obj_get (position c) (entity_id owner) = Some p ->
  (forall k, In (Some k) slots -> exists wpn, obj_get (weapon c) k = Some wpn) ->
  (forall e, In e ents -> exists q, obj_get (position c) (entity_id e) = Some q) ->
  exists c', assignSlots ents owner slots c = Some c'.
Proof.
  revert c. induction slots as [| [wid |] slots IH]; intros c Hp Hw Hents; cbn [assignSlots].
  - eauto.
  - destruct (assignWeaponToTarget ents wid owner c) as [c1 |] eqn:E.
    + pose proof (assignWeaponToTarget_frame _ _ _ _ _ E) as Hf1.
      assert (Hw1 : weapon c1 = weapon c) by (rewrite Hf1; reflexivity).
      assert (Hp1 : position c1 = position c) by (rewrite Hf1; reflexivity).
      apply IH; rewrite ?Hw1, ?Hp1; auto.
      intros k Hk. apply Hw. right. exact Hk.
    + exfalso. eapply assignWeaponToTarget_ok; [| exact Hp | exact Hents | exact E].
      apply Hw. left. reflexivity.
  - apply IH; auto. intros k Hk. apply Hw. right. exact Hk.
Qed.

Lemma assignOwners_ok w es c :
  placedWorld w -> incl es (entities w) ->
  weaponSlots c = weaponSlots (components w) -> weapon c = weapon (components w) ->
  position c = position (components w) ->
  exists c', assignOwners w es c = Some c'.
Proof.
  intros Hwf. revert c. induction es as [| e es IH]; intros c Hincl Hs Hw Hp;
    cbn [assignOwners]; [eauto |].
  destruct (Hwf e (Hincl e (or_introl eq_refl))) as (_ & p & ws & He & Hws & Hk).
  assert (Hslots : exists c1,
    match obj_get (weaponSlots c) (entity_id e) with
    | None => None
    | Some ws => assignSlots (entities w) e (weaponIds ws) c
    end = Some c1).
  { rewrite Hs, Hws. apply (assignSlots_ok _ _ _ _ p).
    - rewrite Hp. exact He.
    - intros k Hin. rewrite Hw. apply (Hk k Hin).
    - intros e' Hin. destruct (Hwf e' Hin) as (_ & q & _ & Hq & _). rewrite Hp. eauto. }
  destruct Hslots as [c1 Hc1].
  assert (Hnext : exists c', assignOwners w es c1 = Some c').
  { destruct (ownerWeapons_melee _ _ _ _ Hc1) as (Hf1 & _).
    apply IH.
    - intros a Ha. apply Hincl. right. exact Ha.
    - rewrite Hf1. exact Hs.
    - rewrite Hf1. exact Hw.
    - rewrite Hf1. exact Hp. }
  assert (Hskip : exists c', assignOwners w es c = Some c').
  { apply IH; auto. intros a Ha. apply Hincl. right. exact Ha. }
  unfold assignAgentWeapons, assignEnemyWeapons.
  destruct (String.eqb (entity_type e) EntityType_AGENT && agentTargetingEnabled w);
    [rewrite Hc1; exact Hnext |].
  destruct (String.eqb (entity_type e) EntityType_ENEMY && enemyTargetingEnabled w);
    [rewrite Hc1; exact Hnext | exact Hskip].
Qed.

(** ** The damage pass after an assignment *)

(** A weapon 10 units right of and below an owner at distance at most 1
    from the target is farther than 1 from the target. *)
Lemma weapon_offset_far p q :
  (distance p q <= 1)%R -> (1 < distance {| x := (x p + 10)%R; y := (y p + 10)%R |} q)%R.
Proof.
  unfold distance. cbn [x y]. intro H.
  remember (x p - x q)%R as a eqn:Ea. remember (y p - y q)%R as b eqn:Eb.
  assert (Hsq : (a ^ 2 + b ^ 2 <= 1)%R).
  { destruct (Rle_dec (a ^ 2 + b ^ 2) 1) as [| Hn]; [assumption |].
    exfalso. apply Rnot_le_lt in Hn.
    assert (Hs : (sqrt 1 < sqrt (a ^ 2 + b ^ 2))%R) by (apply sqrt_lt_1_alt; lra).
    rewrite sqrt_1 in Hs. lra. }
  assert (Hsq' : (a * a + b * b <= 1)%R) by (replace (a * a + b * b)%R with (a ^ 2 + b ^ 2)%R by ring; exact Hsq).
  assert (Hb2 : (0 <= b * b)%R) by (clear Ea Eb H; nra).
  assert (Ha : (-1 <= a)%R) by (clear Ea Eb H; nra).
  assert (Ha2 : (0 <= a * a)%R) by (clear Ea Eb H; nra).
  assert (Hb : (-1 <= b)%R) by (clear Ea Eb H; nra).
  replace (x p + 10 - x q)%R with (a + 10)%R by (rewrite Ea; ring).
  replace (y p + 10 - y q)%R with (b + 10)%R by (rewrite Eb; ring).
  apply Rle_lt_trans with (sqrt 1); [rewrite sqrt_1; lra |].
  apply sqrt_lt_1_alt. split; [lra |].
  replace ((a + 10) ^ 2 + (b + 10) ^ 2)%R with ((a + 10) * (a + 10) + (b + 10) * (b + 10))%R by ring.
  nra.
Qed.

Lemma calculateHitProbability_melee_far d accuracy :
  (1 < d)%R -> calculateHitProbability d 1 accuracy = 0%R.
Proof.
  intro H. unfold calculateHitProbability. rewrite meleeMaxRange_eq.
  unfold Rleb. destruct (Rle_dec d 1) as [Hle |]; [lra |].
  replace (d / 1)%R with d by field.
  unfold Rmin. destruct (Rle_dec 1 d) as [_ | Hn]; [| lra].
  unfold Rmax. destruct (Rle_dec 0 1) as [_ | Hn]; [ring | lra].
Qed.

(** Every link [k] of the targeting object is a [melee] link of a weapon in
    the slots of a listed owner. *)
Definition meleeLinks (w : ECS) : Prop :=
  forall k l, In (k, l) (targeting (components w)) ->
  exists owner ws, In owner (entities w) /\
    obj_get (weaponSlots (components w)) (entity_id owner) = Some ws /\
    In (Some k) (weaponIds ws) /\ meleeLinkOf (entities w) (components w) owner k l.

Lemma damageLink_no_hit rnd k w n :
  (forall m, 0 <= rnd m)%R -> placedWorld w -> meleeLinks w ->
  damageLink rnd k (w, n) = Some (w, n) \/ damageLink rnd k (w, n) = Some (w, S n).
Proof.
  intros Hrnd Hwf Hl. unfold damageLink.
  destruct (obj_get (targeting (components w)) k) as [l |] eqn:Et; [| auto].
  destruct (Hl k l (obj_get_In _ _ _ Et))
    as (owner & ws & Ho & Hws & Hk & Hs & Hen & wpn & tgt & p & q & Hw & Hm & Ht & Htid
        & Hp & Hq & Hd).
  rewrite Hen. cbn [negb]. rewrite Hw.
  destruct (find (fun e => Nat.eqb (entity_id e) (target l)) (entities w)) as [tgt' |] eqn:F.
  2: { exfalso. pose proof (find_none _ _ F tgt Ht) as Hf. cbn beta in Hf.
       rewrite Htid, Nat.eqb_refl in Hf. discriminate. }
  apply find_some in F. destruct F as [_ Hid]. apply Nat.eqb_eq in Hid.
  destruct (Hwf owner Ho) as (_ & p0 & ws0 & Hp0 & Hws0 & Hk0).
  rewrite Hp in Hp0. injection Hp0 as <-. rewrite Hws in Hws0. injection Hws0 as <-.
  destruct (Hk0 k Hk) as (_ & _ & Hpk).
  cbv beta iota. rewrite Hm, WeaponStats_melee, Hs, Hpk, Hid, Htid, Hq, WeaponRangeConfig_melee.
  cbv beta iota zeta.
  rewrite calculateHitProbability_melee_far by (apply weapon_offset_far; exact Hd).
  unfold Rltb. destruct (Rlt_dec (rnd n) 0) as [Hlt |]; [| auto].
  exfalso. specialize (Hrnd n). lra.
Qed.

Lemma damageLoop_no_hit rnd keys w n :
  (forall m, 0 <= rnd m)%R -> placedWorld w -> meleeLinks w ->
  exists n', damageLoop rnd keys (w, n) = Some (w, n').
Proof.
  intros Hrnd Hwf Hl. revert n. induction keys as [| k keys IH]; intro n; cbn [damageLoop]; [eauto |].
  destruct (damageLink_no_hit rnd k w n Hrnd Hwf Hl) as [-> | ->]; apply IH.
Qed.

Lemma placedWorld_withTargeting T w : placedWorld w -> placedWorld (withTargeting T w).
Proof. intro H. exact H. Qed.

(** From a state where every weapon sits at its owner's position shifted by
    [(10, 10)], a step with draws in [[0, 1)] succeeds and only rebuilds
    [targeting]. *)
Lemma ECS_update_placed rnd w :
  (forall m, 0 <= rnd m)%R -> placedWorld w ->
  exists T, ECS_update rnd w = Some (withTargeting T w).
Proof.
  intros Hrnd Hwf. unfold ECS_update.
  destruct (WeaponAssignmentSystem_update w) as [w1 |] eqn:E.
  2: { exfalso. unfold WeaponAssignmentSystem_update in E.
       destruct (assignOwners_ok w (entities w) (set_targeting [] (components w)) Hwf)
         as [c Hc]; try reflexivity.
       - intros a Ha. exact Ha.
       - rewrite Hc in E. discriminate. }
  destruct (WeaponAssignmentSystem_update_prop _ _ E) as (Hw1 & _).
  pose proof (assignment_links_melee _ _ E) as Hm.
  set (T := targeting (components w1)) in *.
  exists T. unfold DamageSystem_update.
  assert (Hl : meleeLinks w1).
  { intros k l Hin. destruct (Hm k l Hin) as (owner & ws & Ho & Hws & Hk & Hml).
    rewrite Hw1. exists owner, ws. auto. }
  assert (Hwf1 : placedWorld w1) by (rewrite Hw1; exact Hwf).
  destruct (damageLoop_no_hit rnd (obj_keys (targeting (components w1))) w1 0 Hrnd Hwf1 Hl)
    as [n' ->].
  rewrite <- Hw1. reflexivity.
Qed.

Lemma placedWorld_addAgent px py wt w w' :
  placedWorld w -> api_addAgent px py wt w = Some w' -> placedWorld w'.
Proof.
  intros Hwf H.
  pose proof (api_addAgent_shape px py wt w) as L. cbv zeta in L.
  destruct L as (w'' & E & He & Hn & Hp & _ & Hws & Hw1 & Hw2 & Hp1 & Hp2 & _).
  rewrite E in H. injection H as <-.
  intros e Hin. rewrite He in Hin. apply in_app_or in Hin.
  destruct Hin as [Hin | [<- | []]].
  - rewrite Hn. apply (weaponsPlaced_frame (components w) _ (nodeId w)); [lia | | exact (Hwf e Hin)].
    intros k Hk. exact (api_addAgent_frame _ _ _ _ _ k E Hk).
  - unfold weaponsPlaced. cbn [entity_id]. rewrite Hn. split; [lia |].
    eexists; eexists. split; [exact Hp |]. split; [exact Hws |].
    intros k Hk. cbn [weaponIds In] in Hk.
    destruct Hk as [Hk | [Hk | Hk]].
    + injection Hk as <-. split; [lia |]. split; [eexists; exact Hw1 | exact Hp1].
    + injection Hk as <-. split; [lia |]. split; [eexists; exact Hw2 | exact Hp2].
    + exfalso. repeat (destruct Hk as [Hk | Hk]; [discriminate |]). exact Hk.
Qed.

Lemma placedWorld_addEnemy et px py pp w w' :
  In et EnemyTypes -> placedWorld w -> api_addEnemy et px py pp w = Some w' -> placedWorld w'.
Proof.
  intros Het Hwf H.
  pose proof (api_addEnemy_shape et px py pp w Het) as L. cbv zeta in L.
  destruct L as (w'' & hp & parts & E & _ & _ & He & Hn & Hp & _ & _ & Hws & Hw1 & Hw2
                 & Hp1 & Hp2 & _).
  rewrite E in H. injection H as <-.
  intros e Hin. rewrite He in Hin. apply in_app_or in Hin.
  destruct Hin as [Hin | [<- | []]].
  - rewrite Hn. apply (weaponsPlaced_frame (components w) _ (nodeId w)); [lia | | exact (Hwf e Hin)].
    intros k Hk. exact (api_addEnemy_frame _ _ _ _ _ _ k Het E Hk).
  - unfold weaponsPlaced. cbn [entity_id]. rewrite Hn. split; [lia |].
    eexists; eexists. split; [exact Hp |]. split; [exact Hws |].
    intros k Hk. cbn [weaponIds In] in Hk.
    destruct Hk as [Hk | [Hk | []]].
    + injection Hk as <-. split; [lia |]. split; [eexists; exact Hw1 | exact Hp1].
    + injection Hk as <-. split; [lia |]. split; [eexists; exact Hw2 | exact Hp2].
Qed.

Lemma reachable_placedWorld w : reachable w -> placedWorld w.
Proof.
  induction 1 as [| w px py wt w' _ IH Hwt E | w et px py pp w' _ IH Het E | w _ IH | w _ IH
                  | w rnd w' _ IH Hrnd E].
  - intros e [].
  - exact (placedWorld_addAgent _ _ _ _ _ IH E).
  - exact (placedWorld_addEnemy _ _ _ _ _ _ Het IH E).
  - exact IH.
  - exact IH.
  - destruct (ECS_update_placed rnd w (fun m => proj1 (Hrnd m)) IH) as [T HT].
    rewrite HT in E. injection E as <-. exact IH.
Qed.


(** ** A state with melee links: an agent with a melee weapon and an infantry,
    both at the origin *)

Definition meleeWorld : ECS :=
  match api_addAgent 0 0 "melee" initialECS with
  | None => initialECS
  | Some w1 =>
      match api_addEnemy "infantry" 0 0 (fun _ => (0, 0)%R) w1 with
      | None => w1
      | Some w2 => w2
      end
  end.

Lemma meleeWorld_reachable : reachable meleeWorld.
Proof.
  pose proof (api_addAgent_shape 0 0 "melee" initialECS) as L1. cbv zeta in L1.
  destruct L1 as (w1 & E1 & _).
  assert (Hinf : In "infantry" EnemyTypes) by (left; reflexivity).
  pose proof (api_addEnemy_shape "infantry" 0 0 (fun _ => (0, 0)%R) w1 Hinf) as L2.
  cbv zeta in L2. destruct L2 as (w2 & _ & _ & E2 & _).
  unfold meleeWorld. rewrite E1, E2.
  apply (reach_addEnemy w1 "infantry" 0 0 (fun _ => (0, 0)%R) w2); [| exact Hinf | exact E2].
  apply (reach_addAgent initialECS 0 0 "melee" w1); [exact reach_init | | exact E1].
  cbv. tauto.
Qed.

(** The assignment pass on [meleeWorld] links the agent's melee weapon (id 2)
    to the infantry (id 3) and the infantry's melee weapon (id 5) to the
    agent (id 0). *)
Lemma meleeWorld_assignment :
  option_map (fun w => targeting (components w)) (WeaponAssignmentSystem_update meleeWorld)
  = Some [(2, {| source := 2; target := 3; color := "gray"; enabled := true |});
          (5, {| source := 5; target := 0; color := "gray"; enabled := true |})].
Proof.
  cbv -[Rleb distance IZR]. rewrite c1_near_in_range.
  cbv -[Rleb distance IZR]. rewrite c1_near_in_range.
  cbv -[Rleb distance IZR]. reflexivity.
Qed.

(** ** Spawning, assignment and steps: summary properties *)

(** [api.addAgent] appends one agent with the next id [n], position
    [(px, py)], 100 hit points and seven slots, then allocates ids [n+1] and
    [n+2] for a rifle and the drawn weapon, both placed at [(px+10, py+10)]
    and stored in the first two slots; the console is untouched. *)
Theorem api_addAgent_layout px py wt w :
  let n := nodeId w in
  exists w', api_addAgent px py wt w = Some w' /\
    entities w' = entities w ++ [{| entity_id := n; entity_type := EntityType_AGENT;
                                    entity_components := {| ec_targetPartType := None |} |}] /\
    nodeId w' = S (S (S n)) /\
    obj_get (position (components w')) n = Some {| x := px; y := py |} /\
    obj_get (health (components w')) n = Some {| value := 100%Z |} /\
    obj_get (weaponSlots (components w')) n
      = Some {| weaponIds := [Some (S n); Some (S (S n)); None; None; None; None; None] |} /\
    obj_get (weapon (components w')) (S n) = Some {| weaponType := "rifle" |} /\
    obj_get (weapon (components w')) (S (S n)) = Some {| weaponType := wt |} /\
    obj_get (position (components w')) (S n) = Some {| x := (px + 10)%R; y := (py + 10)%R |} /\
    obj_get (position (components w')) (S (S n)) = Some {| x := (px + 10)%R; y := (py + 10)%R |} /\
    console w' = console w.
Proof. exact (api_addAgent_shape px py wt w). Qed.

(** [api.addEnemy] for a type of [EnemyTypes] appends one enemy with the next
    id [n], its position, the type's hit points and enemy type, two slots
    holding a laser (id [n+1]) and a second weapon (id [n+2]: rocket for a
    devastator, cannon for a tank, melee for an infantry), both placed at
    [(px+10, py+10)], then one target part per configured part type with
    10 hit points; no part is listed as an entity. *)
Theorem api_addEnemy_layout et px py pp w :
  In et EnemyTypes ->
  let n := nodeId w in
  exists w' hp parts,
    api_addEnemy et px py pp w = Some w' /\
    table_get EntityStats et = Some hp /\
    table_get EnemyPartsConfig et = Some parts /\
    entities w' = entities w ++ [{| entity_id := n; entity_type := EntityType_ENEMY;
                                    entity_components := {| ec_targetPartType := None |} |}] /\
    nodeId w' = S (S (S n)) + List.length parts /\
    obj_get (position (components w')) n = Some {| x := px; y := py |} /\
    obj_get (health (components w')) n = Some {| value := hp |} /\
    obj_get (enemyType_c (components w')) n = Some {| enemyType := et |} /\
    obj_get (weaponSlots (components w')) n
      = Some {| weaponIds := [Some (S n); Some (S (S n))] |} /\
    obj_get (weapon (components w')) (S n) = Some {| weaponType := "laser" |} /\
    obj_get (weapon (components w')) (S (S n))
      = Some {| weaponType := if String.eqb et "devastator" then "rocket"
                              else if String.eqb et "tank" then "cannon" else "melee" |} /\
    obj_get (position (components w')) (S n) = Some {| x := (px + 10)%R; y := (py + 10)%R |} /\
    obj_get (position (components w')) (S (S n)) = Some {| x := (px + 10)%R; y := (py + 10)%R |} /\
    (forall j pt, nth_error parts j = Some pt ->
       obj_get (targetPartType (components w')) (S (S (S n)) + j)
         = Some {| partType := pt; parentEntityId := n |} /\
       obj_get (health (components w')) (S (S (S n)) + j) = Some {| value := 10%Z |}) /\
    console w' = console w.
Proof. intro Het. exact (api_addEnemy_shape et px py pp w Het). Qed.

Lemma api_addEnemy_layout_witness :
  exists w', api_addEnemy "tank" 0 0 (fun _ => (0, 0)%R) initialECS = Some w' /\
    nodeId w' = 7 /\ obj_get (weapon (components w')) 2 = Some {| weaponType := "cannon" |}.
Proof.
  assert (Ht : In "tank" EnemyTypes) by (right; right; left; reflexivity).
  pose proof (api_addEnemy_layout "tank" 0 0 (fun _ => (0, 0)%R) initialECS Ht) as L.
  cbv zeta in L.
  destruct L as (w' & hp & parts & E & _ & Hparts & _ & Hn & _ & _ & _ & _ & _ & Hw2 & _).
  exists w'. split; [exact E |]. split.
  - rewrite Hn. vm_compute in Hparts. injection Hparts as <-. reflexivity.
  - exact Hw2.
Defined.

(** The assignment pass only records links of [melee] weapons: every entry
    [k] of the rebuilt [targeting] is a link keyed by [k], enabled, of a weapon
    of type [melee] held in the slots of a listed owner, to a listed entity at
    distance at most 1 from that owner. *)
Theorem WeaponAssignmentSystem_update_melee_only w w' :
  WeaponAssignmentSystem_update w = Some w' ->
  forall k l, In (k, l) (targeting (components w')) ->
  exists owner ws, In owner (entities w) /\
    obj_get (weaponSlots (components w)) (entity_id owner) = Some ws /\
    In (Some k) (weaponIds ws) /\ meleeLinkOf (entities w) (components w) owner k l.
Proof. exact (assignment_links_melee w w'). Qed.

Lemma WeaponAssignmentSystem_update_melee_only_witness :
  exists w', WeaponAssignmentSystem_update meleeWorld = Some w' /\
  exists owner ws, In owner (entities meleeWorld) /\
    obj_get (weaponSlots (components meleeWorld)) (entity_id owner) = Some ws /\
    In (Some 2) (weaponIds ws) /\
    meleeLinkOf (entities meleeWorld) (components meleeWorld) owner 2
      {| source := 2; target := 3; color := "gray"; enabled := true |}.
Proof.
  pose proof meleeWorld_assignment as A.
  destruct (WeaponAssignmentSystem_update meleeWorld) as [w' |] eqn:E; [| discriminate].
  exists w'. split; [reflexivity |].
  apply (WeaponAssignmentSystem_update_melee_only meleeWorld w' E).
  cbn [option_map] in A. injection A as A. rewrite A. left. reflexivity.
Defined.

(** In every reachable state each listed entity has a position and a
    [weaponSlots] component, and each weapon id of its slots has a [weapon]
    component and the owner's position shifted by [(10, 10)]; all these ids
    are below the id counter. *)
Theorem reachable_weapons_offset w :
  reachable w -> forall e, In e (entities w) -> weaponsPlaced (components w) (nodeId w) e.
Proof. intro H. exact (reachable_placedWorld w H). Qed.

Lemma reachable_weapons_offset_witness :
  weaponsPlaced (components meleeWorld) (nodeId meleeWorld)
    {| entity_id := 0; entity_type := EntityType_AGENT;
       entity_components := {| ec_targetPartType := None |} |}.
Proof.
  apply (reachable_weapons_offset meleeWorld meleeWorld_reachable).
  vm_compute. tauto.
Defined.

(** In every reachable state a simulation step with draws in [[0, 1)]
    succeeds and changes nothing but [components.targeting]: a [melee] link
    needs its owner within distance 1 of the target, but the damage pass
    measures from the weapon, 10 units right of and below the owner, where the
    hit probability is 0; so no hit ever lands, no health changes and no
    entity is removed. *)
Theorem ECS_update_reachable_retargets_only rnd w :
  reachable w -> (forall n, 0 <= rnd n < 1)%R ->
  exists T, ECS_update rnd w = Some (withTargeting T w).
Proof.
  intros Hr Hrnd.
  exact (ECS_update_placed rnd w (fun m => proj1 (Hrnd m)) (reachable_placedWorld w Hr)).
Qed.

Lemma ECS_update_reachable_retargets_only_witness :
  option_map (fun w => targeting (components w)) (WeaponAssignmentSystem_update meleeWorld)
  = Some [(2, {| source := 2; target := 3; color := "gray"; enabled := true |});
          (5, {| source := 5; target := 0; color := "gray"; enabled := true |})] /\
  exists T, ECS_update (fun _ => 0%R) meleeWorld = Some (withTargeting T meleeWorld).
Proof.
  split; [exact meleeWorld_assignment |].
  apply (ECS_update_reachable_retargets_only (fun _ => 0%R) meleeWorld meleeWorld_reachable).
  intro n. split; lra.
Defined.

(** Spawning never touches the [position], [weaponSlots] or [weapon] entry of
    an id allocated before: [api.addAgent] and [api.addEnemy] write only
    under fresh ids. *)
Theorem spawn_keeps_older_ids w k :
  k < nodeId w ->
  (forall px py wt w', api_addAgent px py wt w = Some w' ->
     obj_get (position (components w')) k = obj_get (position (components w)) k /\
     obj_get (weaponSlots (components w')) k = obj_get (weaponSlots (components w)) k /\
     obj_get (weapon (components w')) k = obj_get (weapon (components w)) k) /\
  (forall et px py pp w', In et EnemyTypes -> api_addEnemy et px py pp w = Some w' ->
     obj_get (position (components w')) k = obj_get (position (components w)) k /\
     obj_get (weaponSlots (components w')) k = obj_get (weaponSlots (components w)) k /\
     obj_get (weapon (components w')) k = obj_get (weapon (components w)) k).
Proof.
  intro Hk. split.
  - intros px py wt w' H. exact (api_addAgent_frame px py wt w w' k H Hk).
  - intros et px py pp w' Het H. exact (api_addEnemy_frame et px py pp w w' k Het H Hk).
Qed.

Lemma spawn_keeps_older_ids_witness :
  exists w1, api_addAgent 0 0 "melee" initialECS = Some w1 /\
    obj_get (weapon (components meleeWorld)) 2 = obj_get (weapon (components w1)) 2.
Proof.
  pose proof (api_addAgent_shape 0 0 "melee" initialECS) as L1. cbv zeta in L1.
  destruct L1 as (w1 & E1 & _ & Hn & _).
  assert (Hinf : In "infantry" EnemyTypes) by (left; reflexivity).
  pose proof (api_addEnemy_shape "infantry" 0 0 (fun _ => (0, 0)%R) w1 Hinf) as L2.
  cbv zeta in L2. destruct L2 as (w2 & _ & _ & E2 & _).
  exists w1. split; [exact E1 |].
  assert (Hk : 2 < nodeId w1) by (rewrite Hn; cbn; lia).
  unfold meleeWorld. rewrite E1, E2.
  exact (proj2 (proj2 (proj2 (spawn_keeps_older_ids w1 2 Hk) "infantry" 0%R 0%R
                         (fun _ => (0, 0)%R) w2 Hinf E2))).
Defined.

(** ** Witnesses of the properties stated earlier *)

Definition demoTank : Entity :=
  {| entity_id := 3; entity_type := EntityType_ENEMY;
     entity_components := {| ec_targetPartType := None |} |}.

Definition ghostEntity : Entity :=
  {| entity_id := 42; entity_type := EntityType_ENEMY;
     entity_components := {| ec_targetPartType := None |} |}.

Lemma killEntity_listed_witness :
  entities (killEntity demoTank demoECS)
    = filter (fun e' => negb (Nat.eqb (entity_id e') 3)) (entities demoECS) /\
  obj_get (health (components (killEntity demoTank demoECS))) 3 = None.
Proof.
  assert (Hnd : NoDup (ids (entities demoECS))).
  { vm_compute. repeat constructor; simpl; intuition discriminate. }
  assert (Hin : In demoTank (entities demoECS)) by (vm_compute; tauto).
  pose proof (killEntity_listed demoTank demoECS Hnd Hin) as P. cbv zeta in P.
  destruct P as (He & _ & Hk).
  split; [exact He |]. rewrite (proj1 (proj2 (Hk 3))). reflexivity.
Defined.

Lemma killEntity_absent_witness :
  entities (killEntity ghostEntity demoECS)
    = [{| entity_id := 0; entity_type := EntityType_AGENT;
          entity_components := {| ec_targetPartType := None |} |}].
Proof.
  rewrite killEntity_absent.
  - vm_compute. reflexivity.
  - vm_compute. intros [H | [H | []]]; discriminate.
Defined.

Lemma calculateHitProbability_antitone_witness :
  (calculateHitProbability 3 10 (1 / 2) <= calculateHitProbability 2 10 (1 / 2))%R /\
  calculateHitProbability 12 10 (1 / 2) = 0%R.
Proof.
  split.
  - apply (proj1 (calculateHitProbability_antitone 2 3 10 (1 / 2) ltac:(lra) ltac:(lra))). lra.
  - apply (proj2 (calculateHitProbability_antitone 2 12 10 (1 / 2) ltac:(lra) ltac:(lra))); lra.
Defined.

Lemma DamageSystem_update_health_nonincreasing_witness :
  exists h, obj_get (health (components demoAssigned)) 3 = Some h /\ (200 <= value h)%Z.
Proof.
  assert (Hrun : DamageSystem_update (fun _ => 0%R) demoAssigned = Some demoDamaged)
    by (vm_compute; reflexivity).
  apply (DamageSystem_update_health_nonincreasing _ _ _ Hrun 3 {| value := 200 |}).
  vm_compute. reflexivity.
Defined.

Definition meleeWorldQuiet : ECS :=
  api_toggleAgentTargeting (api_toggleEnemyTargeting meleeWorld).

Lemma ECS_update_targeting_off_witness :
  ECS_update (fun _ => 0%R) meleeWorldQuiet = Some (withTargeting [] meleeWorldQuiet).
Proof. apply ECS_update_targeting_off; vm_compute; reflexivity. Defined.

(** ** What one assignment pass leaves for a weapon met once *)











Lemma inRangeOf_frame c base T :
  c = set_targeting T base -> inRangeOf c = inRangeOf base.
Proof. intros ->. reflexivity. Qed.

















Definition meleeLink23 : TargetingComponent :=
  {| source := 2; target := 3; color := "gray"; enabled := true |}.

(** [meleeWorld] with the melee weapon 2 already linked to the infantry 3,
    its only candidate. *)
Definition meleeWorldLinked : ECS := withTargeting [(2, meleeLink23)] meleeWorld.

Lemma WeaponAssignmentSystem_update_one_link_per_weapon_witness :
  (exists w', WeaponAssignmentSystem_update meleeWorld = Some w' /\
     linksFrom (targeting (components w')) 2 = [meleeLink23] /\
     List.length (linksFrom (targeting (components w')) 2) <= 1) /\
  (exists c', assignWeaponToTarget (entities meleeWorld) 2 c1Agent (components meleeWorld)
              = Some c' /\
     In meleeLink23 (obj_values (targeting c')) /\
     source meleeLink23 = 2 /\
     alreadyTargeted (targeting (components meleeWorld)) 2 (target meleeLink23) = false) /\
  (alreadyTargeted (targeting (components meleeWorldLinked)) 2 3 = true /\
   exists c', assignWeaponToTarget (entities meleeWorld) 2 c1Agent (components meleeWorldLinked)
              = Some c' /\
     targeting c' = [(2, meleeLink23)] /\
     forall wid, List.length (linksFrom (targeting c') wid) <= 1).
Proof.
  pose proof meleeWorld_assignment as A.
  destruct (WeaponAssignmentSystem_update meleeWorld) as [w' |] eqn:E; [| discriminate].
  cbn [option_map] in A. injection A as A.
  pose proof (WeaponAssignmentSystem_update_one_link_per_weapon meleeWorld w' E) as [P1 P2].
  split.
  - exists w'. split; [reflexivity |]. split.
    + rewrite A. reflexivity.
    + exact (P1 2).
  - split.
    + assert (C : option_map (fun c => targeting c)
                    (assignWeaponToTarget (entities meleeWorld) 2 c1Agent (components meleeWorld))
                  = Some [(2, meleeLink23)]).
      { cbv -[Rleb distance IZR]. rewrite c1_near_in_range.
        cbv -[Rleb distance IZR]. reflexivity. }
      destruct (assignWeaponToTarget (entities meleeWorld) 2 c1Agent (components meleeWorld))
        as [c' |] eqn:Ec; [| discriminate C].
      cbn [option_map] in C. injection C as C.
      assert (Hin : In meleeLink23 (obj_values (targeting c'))) by (rewrite C; left; reflexivity).
      assert (Hnin : ~ In meleeLink23 (obj_values (targeting (components meleeWorld))))
        by (vm_compute; tauto).
      destruct (proj2 (P2 _ _ _ _ _ Ec) meleeLink23 Hin Hnin) as [Hs Ha].
      exists c'. split; [reflexivity |]. split; [exact Hin |]. split; [exact Hs | exact Ha].
    + split; [vm_compute; reflexivity |].
      assert (C : option_map (fun c => targeting c)
                    (assignWeaponToTarget (entities meleeWorld) 2 c1Agent
                       (components meleeWorldLinked))
                  = Some [(2, meleeLink23)]) by (vm_compute; reflexivity).
      destruct (assignWeaponToTarget (entities meleeWorld) 2 c1Agent (components meleeWorldLinked))
        as [c' |] eqn:Ec; [| discriminate C].
      cbn [option_map] in C. injection C as C.
      assert (Ht : targeting (components meleeWorldLinked) = [(2, meleeLink23)]) by reflexivity.
      assert (Hi : tgInv (targeting (components meleeWorldLinked))).
      { rewrite Ht. split.
        - repeat constructor. intros [].
        - intros k l [H | []]. injection H as <- <-. reflexivity. }
      destruct (proj1 (P2 _ _ _ _ _ Ec) Hi) as [_ Hle].
      exists c'. split; [reflexivity |]. split; [exact C | exact Hle].
Defined.
